(** * pyobo.aws: the S3 artifact cache, embedded and verified

    A shallow embedding of [src/pyobo/aws.py]: the four public operations
    [download_artifacts], [upload_artifacts], [upload_artifacts_for_prefix]
    and [list_artifacts], with the helper [upload_file].  The modules
    [src/pyobo/mappings/extract_names.py] and [src/pyobo/version.py] are
    embedded in the modules [ExtractNames] and [Version], as pure functions
    of what their collaborators return.

    The Python code is effectful: it talks to an S3 bucket through a boto3
    client, reads and writes the local file system and raises exceptions.
    The embedding threads an explicit [world] through an error-and-state
    monad [M].  The world records the local file system, the buckets, the
    number of boto3 clients constructed so far and a log of the calls the
    code makes to its collaborators.

    Conventions of the model:
    - a Python [str] is a Rocq [string] (a byte string; UTF-8 keeps the
      order of code points, so comparisons agree);
    - paths are POSIX paths ([os.path] is [posixpath]) and a path string
      names a file literally: no symbolic links, no [.] or [..] segments, no
      empty segment and no separator at the end;
    - a bucket of the model is what the one listing call of a run returns,
      in the order of the list: S3 answers a call with at most 1000 keys in
      ascending order and [aws.py] makes one call and no second page, so a
      run of the code on a bucket is the run of the model on the objects the
      call lists.  What a statement says of a later run is therefore said
      for every bucket that run may be shown;
    - the collaborators that are not part of [aws.py] (version resolver,
      cache path resolver, derivation functions, local registry, report
      formatting, the cache root) are the fields of an environment [env];
    - network failures other than a missing bucket or key are not modelled,
      and the calls to [logging] are left out. *)

From Stdlib Require Import Ascii String.
From Stdlib.Strings Require Byte.
From stdpp Require Import gmap strings sorting.

(* ===================================================================== *)
(** ** Python strings and POSIX paths *)
(* ===================================================================== *)

Module PyStr.

Definition sep : ascii := "/"%char.

Definition is_sep (c : ascii) : bool := bool_decide (c = sep).

(** [s.startswith(p)] *)
Definition startswith (s p : string) : bool := String.prefix p s.

(** [s.endswith(suf)]: [suf] is [s] itself or a suffix of its tail. *)
Fixpoint endswith (s suf : string) : bool :=
  if String.eqb s suf then true
  else match s with
       | "" => false
       | String _ s' => endswith s' suf
       end.

(** [s.split("/")[0]]: the characters before the first separator. *)
Fixpoint first_segment (s : string) : string :=
  match s with
  | "" => ""
  | String c s' => if is_sep c then "" else String c (first_segment s')
  end.

(** [(p[:i], p[i:])] for [i = p.rfind("/") + 1]. *)
Fixpoint rsplit_sep (s : string) : string * string :=
  match s with
  | "" => ("", "")
  | String c s' =>
      let '(h, t) := rsplit_sep s' in
      if is_sep c then (String c h, t)
      else if String.eqb h "" then ("", String c t)
      else (String c h, t)
  end.

(** [s.rstrip("/")] *)
Fixpoint rstrip_sep (s : string) : string :=
  match s with
  | "" => ""
  | String c s' =>
      let r := rstrip_sep s' in
      if is_sep c && String.eqb r "" then "" else String c r
  end.

(** [s == "/" * len(s)] *)
Fixpoint all_sep (s : string) : bool :=
  match s with
  | "" => true
  | String c s' => is_sep c && all_sep s'
  end.

(** [posixpath.dirname]:
<<
    i = p.rfind(sep) + 1
    head = p[:i]
    if head and head != sep*len(head):
        head = head.rstrip(sep)
    return head
>> *)
Definition dirname (p : string) : string :=
  let head := fst (rsplit_sep p) in
  if negb (String.eqb head "") && negb (all_sep head)
  then rstrip_sep head else head.

(** One step of [posixpath.join]'s loop:
<<
    if b.startswith(sep):              path = b
    elif not path or path.endswith(sep): path += b
    else:                              path += sep + b
>> *)
Definition join2 (path b : string) : string :=
  if startswith b "/" then b
  else if String.eqb path "" || endswith path "/" then path +:+ b
  else path +:+ "/" +:+ b.

(** [os.path.join(a, *p)] *)
Definition join (a : string) (p : list string) : string :=
  fold_left join2 p a.

(** [pathlib.PurePosixPath.name] on the string form of a path: the final
    component; the path ["."] has the empty name. *)
Definition name (p : string) : string :=
  if String.eqb p "." then "" else snd (rsplit_sep p).

(** The directories [os.makedirs] has to provide for [d]: every prefix of
    [d] that ends just before a separator, shortest first, then [d]. *)
Fixpoint ancestors_from (acc s : string) : list string :=
  match s with
  | "" => if String.eqb acc "" then [] else [acc]
  | String c s' =>
      (if is_sep c && negb (String.eqb acc "") && negb (all_sep acc)
       then [acc] else [])
      ++ ancestors_from (acc +:+ String c "") s'
  end.

Definition ancestors (d : string) : list string := ancestors_from "" d.

End PyStr.


(* ===================================================================== *)
(** ** Exceptions, results and the world *)
(* ===================================================================== *)

(** The exceptions the code can raise or let through. *)
Inductive exn : Type :=
  | KeyError (key : string)            (* [d[key]] on a dict without [key] *)
  | FileNotFoundError
  | FileExistsError
  | NotADirectoryError
  | IsADirectoryError
  | ClientError (code : string)        (* botocore's error, e.g. NoSuchBucket *)
  | OtherError (msg : string).         (* anything a collaborator raises *)

Inductive res (A : Type) : Type :=
  | Ok (a : A)
  | Raise (e : exn).
Arguments Ok {A} a.
Arguments Raise {A} e.

(** [CacheArtifact] of [pyobo.utils.path]: the six kinds [aws.py] names. *)
Inductive CacheArtifact : Type :=
  | names | synonyms | xrefs | relations | properties | alts.

(** A node of the local file system. *)
Inductive node : Type :=
  | File (body : string)
  | Dir.

(** An object stored in a bucket. *)
Record s3_object : Type := mk_object { obj_key : string; obj_body : string }.

(** An element of the ["Contents"] list of a listing response. *)
Record entry : Type := mk_entry { Key : string; Size : nat }.

(** The response of [list_objects]: a dict in which ["Contents"] may be
    missing. *)
Record response : Type := mk_response { Contents : option (list entry) }.

(** A boto3 client is identified by the order in which it was constructed. *)
Definition client : Type := nat.

(** What the code asks of its collaborators, in the order it asks. The event
    [ECallUploadForPrefix] is a ghost event that marks the entry of
    [upload_artifacts_for_prefix]. *)
Inductive event : Type :=
  | EClient (c : client)                               (* boto3.client("s3") *)
  | EListObjects (c : client) (bucket : string)        (* c.list_objects(Bucket=bucket) *)
  | EDownloadFile (c : client) (bucket key path : string)
  | EUploadFile (c : client) (path bucket key : string)
  | EDerive (kind : CacheArtifact) (prefix : string)   (* get_id_name_mapping(prefix), ... *)
  | EExists (path : string) (found : bool)             (* os.path.exists, Path.exists *)
  | EMakedirs (d : string)                             (* os.makedirs(d, exist_ok=True) *)
  | ECallUploadForPrefix (prefix bucket : string) (c : option client).

Record world : Type := mk_world {
  fs : gmap string node;                (* local file system, by path *)
  s3 : gmap string (list s3_object);    (* buckets, by name *)
  clients : nat;                        (* number of clients constructed *)
  log : list event;                     (* calls made so far, oldest first *)
}.

(** The collaborators of [aws.py] that live in other modules.  The getter
    [get_id_name_mapping] of [mappings/extract_names.py] is one of the
    derivations: it computes its mapping under [cached_mapping], which writes
    the cache file.  [get_version] here is the version resolver of
    [pyobo.api.utils], which takes a source; it is not [get_version] of
    [version.py], which gives the version of the package. *)
Record env : Type := mk_env {
  (* pyobo.constants.RAW_DIRECTORY *)
  RAW_DIRECTORY : string;
  (* pyobo.api.utils.get_version *)
  get_version : string -> string;
  (* pyobo.utils.path.get_cache_path(prefix, kind, version=version), as a string *)
  get_cache_path : string -> CacheArtifact -> string -> string;
  (* the derivation functions of pyobo; they may write the cache and may raise *)
  derive : CacheArtifact -> string -> gmap string node -> res unit * gmap string node;
  (* pyobo.registries.iter_cached_obo: pairs (prefix, path) found in the cache *)
  iter_cached_obo : gmap string node -> list (string * string);
  (* humanize.naturalsize and tabulate.tabulate *)
  naturalsize : nat -> string;
  tabulate : list (string * string) -> list string -> string;
}.

(* ===================================================================== *)
(** ** The monad of the embedding: state and exceptions *)
(* ===================================================================== *)

Definition M (A : Type) : Type := world -> res A * world.

Definition ret {A} (a : A) : M A := fun w => (Ok a, w).

Definition raise {A} (e : exn) : M A := fun w => (Raise e, w).

Definition bind {A B} (m : M A) (k : A -> M B) : M B :=
  fun w => match m w with
           | (Ok a, w') => k a w'
           | (Raise e, w') => (Raise e, w')
           end.

Notation "'let*' x ':=' m 'in' k" := (bind m (fun x => k))
  (at level 10, x pattern, m at level 100, k at level 200).

(** A Python [for] loop whose body neither breaks nor returns. *)
Fixpoint for_each {A} (l : list A) (body : A -> M unit) : M unit :=
  match l with
  | [] => ret tt
  | x :: l' => let* _ := body x in for_each l' body
  end.

Definition emit (e : event) : M unit :=
  fun w => (Ok tt, mk_world (fs w) (s3 w) (clients w) (log w ++ [e])).

Definition set_fs (f : gmap string node) (w : world) : world :=
  mk_world f (s3 w) (clients w) (log w).

Definition set_s3 (b : gmap string (list s3_object)) (w : world) : world :=
  mk_world (fs w) b (clients w) (log w).

(* ===================================================================== *)
(** ** The collaborators: boto3, os, pathlib *)
(* ===================================================================== *)

(** [boto3.client("s3")]: a new client, numbered by construction order. *)
Definition boto3_client : M client :=
  fun w => (Ok (clients w),
            mk_world (fs w) (s3 w) (S (clients w)) (log w ++ [EClient (clients w)])).

Definition entry_of (o : s3_object) : entry :=
  mk_entry (obj_key o) (String.length (obj_body o)).

(** [c.list_objects(Bucket=bucket)]: the response enumerates the bucket; it
    has no ["Contents"] when the bucket holds no object. *)
Definition list_objects (c : client) (bucket : string) : M response :=
  let* _ := emit (EListObjects c bucket) in
  fun w => match s3 w !! bucket with
           | None => (Raise (ClientError "NoSuchBucket"), w)
           | Some [] => (Ok (mk_response None), w)
           | Some objs => (Ok (mk_response (Some (map entry_of objs))), w)
           end.

(** [all_objects["Contents"]] *)
Definition getitem_Contents (r : response) : M (list entry) :=
  match Contents r with
  | Some l => ret l
  | None => raise (KeyError "Contents")
  end.

Definition find_object (key : string) (objs : list s3_object) : option s3_object :=
  List.find (fun o => String.eqb (obj_key o) key) objs.

(** [c.download_file(bucket, key, path)] *)
Definition download_file (c : client) (bucket key path : string) : M unit :=
  let* _ := emit (EDownloadFile c bucket key path) in
  fun w => match s3 w !! bucket with
           | None => (Raise (ClientError "NoSuchBucket"), w)
           | Some objs =>
               match find_object key objs with
               | None => (Raise (ClientError "404"), w)
               | Some o => (Ok tt, set_fs (<[path := File (obj_body o)]> (fs w)) w)
               end
           end.

(** Writing an object replaces the one stored under the same key. *)
Fixpoint put_object (o : s3_object) (objs : list s3_object) : list s3_object :=
  match objs with
  | [] => [o]
  | o' :: objs' =>
      if String.eqb (obj_key o') (obj_key o) then o :: objs'
      else o' :: put_object o objs'
  end.

(** [c.upload_file(path, bucket, key)]; the transfer wraps the error of the
    client in its own [S3UploadFailedError]. *)
Definition s3_upload_file (c : client) (path bucket key : string) : M unit :=
  let* _ := emit (EUploadFile c path bucket key) in
  fun w => match fs w !! path with
           | None => (Raise FileNotFoundError, w)
           | Some Dir => (Raise IsADirectoryError, w)
           | Some (File body) =>
               match s3 w !! bucket with
               | None => (Raise (OtherError "S3UploadFailedError"), w)
               | Some objs =>
                   (Ok tt, set_s3 (<[bucket := put_object (mk_object key body) objs]> (s3 w)) w)
               end
           end.

(** [os.path.exists(path)] and [Path.exists()] *)
Definition path_exists (path : string) : M bool :=
  fun w => let found := bool_decide (is_Some (fs w !! path)) in
           (Ok found, mk_world (fs w) (s3 w) (clients w) (log w ++ [EExists path found])).

(** Creating the directories of a chain, outermost first: a directory that
    is there is kept, a regular file in the way is an error. *)
Fixpoint mkdir_chain (ds : list string) (f : gmap string node)
  : res unit * gmap string node :=
  match ds with
  | [] => (Ok tt, f)
  | d :: ds' =>
      match f !! d with
      | None => mkdir_chain ds' (<[d := Dir]> f)
      | Some Dir => mkdir_chain ds' f
      | Some (File _) =>
          (Raise (match ds' with [] => FileExistsError | _ => NotADirectoryError end), f)
      end
  end.

(** [os.makedirs(d, exist_ok=True)]; the empty path cannot be created. *)
Definition makedirs (d : string) : M unit :=
  let* _ := emit (EMakedirs d) in
  fun w => if String.eqb d "" then (Raise FileNotFoundError, w)
           else let '(r, f) := mkdir_chain (PyStr.ancestors d) (fs w) in
                (r, set_fs f w).

(** Python's order on pairs of strings: by the first component, then by the
    second. *)
Definition tuple_le (a b : string * string) : Prop :=
  if decide (a.1 = b.1) then (a.2 ≤ b.2)%string else (a.1 ≤ b.1)%string.

#[global] Instance tuple_le_dec : RelDecision tuple_le.
Proof. intros a b. unfold tuple_le. destruct (decide (a.1 = b.1)); apply _. Defined.

(** [sorted(l)] on a list of pairs of strings. *)
Definition sorted (l : list (string * string)) : list (string * string) :=
  merge_sort tuple_le l.

(** Truth value of an optional string and of an optional set. *)
Definition truthy_str (s : option string) : bool :=
  match s with
  | Some s => negb (String.eqb s "")
  | None => false
  end.

Definition truthy_set (s : option (gset string)) : bool :=
  match s with
  | Some s => negb (bool_decide (s = ∅))
  | None => false
  end.

(** [x in s] for an optional set that is known to be truthy where it is used. *)
Definition member (x : string) (s : option (gset string)) : bool :=
  match s with
  | Some s => bool_decide (x ∈ s)
  | None => false
  end.

(* ===================================================================== *)
(** ** The operations of [aws.py] *)
(* ===================================================================== *)

Section Aws.

Context (E : env).

(** A derivation function of pyobo, called for its effect on the cache. *)
Definition derivation (kind : CacheArtifact) (prefix : string) : M unit :=
  let* _ := emit (EDerive kind prefix) in
  fun w => let '(r, f) := derive E kind prefix (fs w) in (r, set_fs f w).

Definition get_id_name_mapping : string -> M unit := derivation names.
Definition get_id_synonyms_mapping : string -> M unit := derivation synonyms.
Definition get_xrefs_df : string -> M unit := derivation xrefs.
Definition get_relations_df : string -> M unit := derivation relations.
Definition get_properties_df : string -> M unit := derivation properties.
Definition get_id_to_alts : string -> M unit := derivation alts.

(** The condition of line 47, [suffix and not key.endswith(suffix)]. *)
Definition suffix_mismatch (suffix : option string) (key : string) : bool :=
  match suffix with
  | Some s => truthy_str suffix && negb (PyStr.endswith key s)
  | None => false
  end.

(** [download_artifacts(bucket, suffix=None)], lines 35-54. The branch of
    line 47 is [pass]: both arms go on to line 49. *)
Definition download_artifacts (bucket : string) (suffix : option string) : M unit :=
  let* s3_client := boto3_client in
  let* all_objects := list_objects s3_client bucket in
  let* contents := getitem_Contents all_objects in
  for_each contents (fun entry =>
    let key := Key entry in
    let* _ := (if suffix_mismatch suffix key then ret tt (* pass *) else ret tt) in
    let path := PyStr.join (RAW_DIRECTORY E) [key] in
    let* _ := makedirs (PyStr.dirname path) in
    let* present := path_exists path in
    if present then ret tt (* continue *)
    else download_file s3_client bucket key path).

(** [upload_file(path, bucket, key, s3_client=None)] (keyword arguments),
    lines 144-153. *)
Definition upload_file (path bucket key : string) (s3_client : option client) : M unit :=
  let* s3_client :=
    match s3_client with None => boto3_client | Some c => ret c end in
  s3_upload_file s3_client path bucket key.

(** [upload_artifacts_for_prefix(prefix, bucket, s3_client=None,
    version=None)] (keyword arguments), lines 79-141: six blocks, written
    out as in the source. *)
Definition upload_artifacts_for_prefix
    (prefix bucket : string) (s3_client : option client) (version : option string)
  : M unit :=
  let* _ := emit (ECallUploadForPrefix prefix bucket s3_client) in
  let* s3_client :=
    match s3_client with None => boto3_client | Some c => ret c end in
  let version := match version with None => get_version E prefix | Some v => v end in

  let* _ := get_id_name_mapping prefix in
  let id_name_path := get_cache_path E prefix names version in
  let* present := path_exists id_name_path in
  let* _ := (if negb present then raise FileNotFoundError else ret tt) in
  let id_name_key := PyStr.join prefix ["cache"; PyStr.name id_name_path] in
  let* _ := upload_file id_name_path bucket id_name_key (Some s3_client) in

  let* _ := get_id_synonyms_mapping prefix in
  let id_synonyms_path := get_cache_path E prefix synonyms version in
  let* present := path_exists id_synonyms_path in
  let* _ := (if negb present then raise FileNotFoundError else ret tt) in
  let id_synonyms_key := PyStr.join prefix ["cache"; PyStr.name id_synonyms_path] in
  let* _ := upload_file id_synonyms_path bucket id_synonyms_key (Some s3_client) in

  let* _ := get_xrefs_df prefix in
  let xrefs_path := get_cache_path E prefix xrefs version in
  let* present := path_exists xrefs_path in
  let* _ := (if negb present then raise FileNotFoundError else ret tt) in
  let xrefs_key := PyStr.join prefix ["cache"; PyStr.name xrefs_path] in
  let* _ := upload_file xrefs_path bucket xrefs_key (Some s3_client) in

  let* _ := get_relations_df prefix in
  let relations_path := get_cache_path E prefix relations version in
  let* present := path_exists relations_path in
  let* _ := (if negb present then raise FileNotFoundError else ret tt) in
  let relations_key := PyStr.join prefix ["cache"; PyStr.name relations_path] in
  let* _ := upload_file relations_path bucket relations_key (Some s3_client) in

  let* _ := get_properties_df prefix in
  let properties_path := get_cache_path E prefix properties version in
  let* present := path_exists properties_path in
  let* _ := (if negb present then raise FileNotFoundError else ret tt) in
  let properties_key := PyStr.join prefix [PyStr.name properties_path] in
  let* _ := upload_file properties_path bucket properties_key (Some s3_client) in

  let* _ := get_id_to_alts prefix in
  let alts_path := get_cache_path E prefix alts version in
  let* present := path_exists alts_path in
  let* _ := (if negb present then raise FileNotFoundError else ret tt) in
  let alts_key := PyStr.join prefix ["cache"; PyStr.name alts_path] in
  upload_file alts_path bucket alts_key None.

(** [{entry["Key"].split("/")[0] for entry in contents}] *)
Definition uploaded_prefixes_of (contents : list entry) : gset string :=
  list_to_set (map (fun entry => PyStr.first_segment (Key entry)) contents).

(** [upload_artifacts(bucket, whitelist=None, blacklist=None,
    s3_client=None)], lines 57-76. [sorted] consumes the generator
    [iter_cached_obo()] before the first iteration. *)
Definition upload_artifacts
    (bucket : string) (whitelist blacklist : option (gset string))
    (s3_client : option client) : M unit :=
  let* s3_client :=
    match s3_client with None => boto3_client | Some c => ret c end in
  let* all_objects := list_objects s3_client bucket in
  let* contents := getitem_Contents all_objects in
  let uploaded_prefixes := uploaded_prefixes_of contents in
  let* cached := (fun w => (Ok (iter_cached_obo E (fs w)), w)) in
  for_each (sorted cached) (fun '(prefix, _) =>
    if bool_decide (prefix ∈ uploaded_prefixes) then ret tt (* continue *)
    else if truthy_set whitelist && negb (member prefix whitelist) then ret tt (* continue *)
    else if truthy_set blacklist && member prefix blacklist then ret tt (* continue *)
    else upload_artifacts_for_prefix prefix bucket (Some s3_client) None).

(** [list_artifacts(bucket)], lines 156-163. *)
Definition list_artifacts (bucket : string) : M string :=
  let* s3_client := boto3_client in
  let* all_objects := list_objects s3_client bucket in
  let* contents := getitem_Contents all_objects in
  let rows := map (fun entry => (Key entry, naturalsize E (Size entry))) contents in
  ret (tabulate E rows ["File"; "Size"]).

End Aws.

(* ===================================================================== *)
(** ** A concrete environment and concrete worlds *)
(* ===================================================================== *)

Module Sample.

Definition kind_file (kind : CacheArtifact) : string :=
  match kind with
  | names => "names.tsv"
  | synonyms => "synonyms.tsv"
  | xrefs => "xrefs.tsv"
  | relations => "relations.tsv"
  | properties => "properties.tsv"
  | alts => "alts.tsv"
  end.

Definition cache_path (prefix : string) (kind : CacheArtifact) (version : string) : string :=
  "/raw/" +:+ prefix +:+ "/" +:+ version +:+ "/" +:+ kind_file kind.

(** A derivation that writes the cache file of its kind, except for the
    kinds and sources in [lazy], for which it returns without writing. *)
Definition derive_unless (lazy : CacheArtifact -> string -> bool)
    (kind : CacheArtifact) (prefix : string) (f : gmap string node)
  : res unit * gmap string node :=
  if lazy kind prefix then (Ok tt, f)
  else (Ok tt, <[cache_path prefix kind "1.0" := File (kind_file kind)]> f).

Definition sample_env (lazy : CacheArtifact -> string -> bool)
    (cached : list (string * string)) : env :=
  {| RAW_DIRECTORY := "/raw";
     get_version := fun _ => "1.0";
     get_cache_path := cache_path;
     derive := derive_unless lazy;
     iter_cached_obo := fun _ => cached;
     naturalsize := fun n => if Nat.eqb n 0 then "0 Bytes" else "some Bytes";
     tabulate := fun rows _ => String.concat ";" (map fst rows) |}.

Definition never (kind : CacheArtifact) (prefix : string) : bool := false.

(** The names of source [go] are never produced. *)
Definition go_names_missing (kind : CacheArtifact) (prefix : string) : bool :=
  match kind with
  | names => String.eqb prefix "go"
  | _ => false
  end.

(** The xrefs of every source are never produced. *)
Definition xrefs_missing (kind : CacheArtifact) (prefix : string) : bool :=
  match kind with
  | xrefs => true
  | _ => false
  end.

Definition local_sources : list (string * string) :=
  [("hp", "/raw/hp"); ("go", "/raw/go")].

Definition good_env : env := sample_env never local_sources.
Definition go_broken_env : env := sample_env go_names_missing local_sources.
Definition xrefs_broken_env : env := sample_env xrefs_missing local_sources.

(** A bucket with two objects of source [chebi], and an empty local cache. *)
Definition chebi_objects : list s3_object :=
  [ mk_object "chebi/cache/names.tsv" "n";
    mk_object "chebi/cache/xrefs.tsv" "xx" ].

Definition world_with (objs : list s3_object) : world :=
  {| fs := ∅; s3 := {[ "bkt" := objs ]}; clients := 0; log := [] |}.

Definition w_chebi : world := world_with chebi_objects.

(** A bucket that already holds an object of source [go]. *)
Definition w_go_remote : world :=
  world_with [ mk_object "go/cache/names.tsv" "n" ].

(** A bucket without objects. *)
Definition w_empty_bucket : world := world_with [].


(** A bucket with the keys [a] and [a/b], in the order of a listing, and a
    local cache in which [a] is a directory. *)
Definition w_nested : world :=
  {| fs := {[ "/raw" := Dir; "/raw/a" := Dir ]};
     s3 := {[ "bkt" := [ mk_object "a" "x"; mk_object "a/b" "y" ] ]};
     clients := 0; log := [] |}.

End Sample.

(* ===================================================================== *)
(** ** pyobo.mappings.extract_names *)
(* ===================================================================== *)

(** The module [src/pyobo/mappings/extract_names.py].  In this module a
    character of a [string] stands for one character of a Python [str], so
    that [len] is [String.length] and a slice counts characters (prefixes
    and identifiers of OBO are ASCII). *)
Module ExtractNames.

(** [s[n:]] for [n >= 0]: the string without its first [n] characters, and
    the empty string when it has no more than [n]. *)
Fixpoint slice_from (n : nat) (s : string) : string :=
  match n, s with
  | 0, _ => s
  | S n', String _ s' => slice_from n' s'
  | S _, EmptyString => EmptyString
  end.

(** A Python [dict] from strings to strings: the items in the order of
    their insertion. *)
Definition dict : Type := list (string * string).

(** [d[k] = v]: the value of a key that is there is replaced where the key
    stands, a new key goes to the end. *)
Fixpoint dict_set (k v : string) (d : dict) : dict :=
  match d with
  | [] => [(k, v)]
  | (k', v') :: d' =>
      if String.eqb k' k then (k', v) :: d' else (k', v') :: dict_set k v d'
  end.

(** [d.get(k)] *)
Fixpoint dict_get (k : string) (d : dict) : option string :=
  match d with
  | [] => None
  | (k', v') :: d' => if String.eqb k' k then Some v' else dict_get k d'
  end.

(** [dict(items)] for an iterable of pairs. *)
Definition dict_of_items (items : list (string * string)) : dict :=
  foldl (fun d kv => dict_set kv.1 kv.2 d) [] items.

(** The attributes of a node: a dict whose values are strings or [None]
    (the [None] of a value is the inner [None]). *)
Definition attrs : Type := gmap string (option string).

(** [data.get('name')] *)
Definition get_name (data : attrs) : option string :=
  match data !! "name" with
  | Some v => v
  | None => None
  end.

(** What [graph.nodes(data=True)] iterates over: the nodes of the graph with
    their attributes, in the order of their insertion. *)
Definition graph : Type := list (string * attrs).

(** [_iterate_identifier_names(graph, prefix)], lines 37-43; the generator
    is the list of what it yields. *)
Fixpoint _iterate_identifier_names (g : graph) (prefix : string)
  : list (string * string) :=
  match g with
  | [] => []
  | (node, data) :: g' =>
      let identifier := slice_from (String.length (prefix +:+ ":")) node in
      let name := get_name data in
      match name with
      | None => _iterate_identifier_names g' prefix (* continue *)
      | Some name => (identifier, name) :: _iterate_identifier_names g' prefix
      end
  end.

Section Getters.

(** The collaborators of other modules: [prefix_directory_join] of
    [path_utils], [get_obo_graph] of [getters], and the decorator
    [cached_mapping] of [cache_utils] applied to the function it wraps. *)
Context (prefix_directory_join : string -> string -> string).
Context (get_obo_graph : string -> option string -> res graph).
Context (cached_mapping : string -> list string -> (unit -> res dict) -> res dict).

(** The inner function [_get_id_name_mapping] of lines 24-26. *)
Definition _get_id_name_mapping (prefix : string) (url : option string)
  : res dict :=
  match get_obo_graph prefix url with
  | Ok g => Ok (dict_of_items (_iterate_identifier_names g prefix))
  | Raise e => Raise e
  end.

(** [get_id_name_mapping(prefix, url=None)], lines 19-28. *)
Definition get_id_name_mapping (prefix : string) (url : option string)
  : res dict :=
  let path := prefix_directory_join prefix (prefix +:+ ".mapping.tsv") in
  cached_mapping path [prefix +:+ "_id"; "name"]
    (fun _ => _get_id_name_mapping prefix url).

(** [get_name_id_mapping(prefix, url=None)], lines 31-34; the comprehension
    sets [v] to [k] for the items [(k, v)] of [d] in their order. *)
Definition get_name_id_mapping (prefix : string) (url : option string)
  : res dict :=
  match get_id_name_mapping prefix url with
  | Ok d => Ok (foldl (fun acc kv => dict_set kv.2 kv.1 acc) [] d)
  | Raise e => Raise e
  end.

End Getters.

(** A graph of the Human Phenotype Ontology with a node of another
    ontology and a node without a name. *)
Definition hp_graph : graph :=
  [ ("HP:0000001", {[ "name" := Some "All" ]});
    ("HP:0000118", {[ "name" := Some "Phenotypic abnormality" ]});
    ("GO:0000001", {[ "name" := Some "mitochondrion inheritance" ]});
    ("HP:0000005", {[ "def" := Some "inheritance" ]}) ].

End ExtractNames.

(* ===================================================================== *)
(** ** pyobo.version *)
(* ===================================================================== *)

(** The module [src/pyobo/version.py].  A [bytes] object is a list of
    bytes, and a [str] is the list of its code points. *)
Module Version.

Import Stdlib.Strings.Byte.

Definition bytes : Type := list byte.
Definition str : Type := list N.

(** The [str] of an ASCII literal. *)
Definition str_of (s : string) : str :=
  map N_of_ascii (list_ascii_of_string s).

Inductive error : Type :=
  | CalledProcessError (returncode : Z)
  | UnicodeDecodeError
  | OSError (msg : string).

Inductive result (A : Type) : Type :=
  | Return (a : A)
  | Throw (e : error).
Arguments Return {A} a.
Arguments Throw {A} e.

(** What becomes of the child process: it cannot be started, or it exits
    with a return code after writing [stdout]. *)
Inductive child : Type :=
  | NotStarted (msg : string)
  | Exited (returncode : Z) (stdout : bytes).

(** [subprocess.check_output]: the output of a child that exits with 0. *)
Definition check_output (c : child) : result bytes :=
  match c with
  | NotStarted msg => Throw (OSError msg)
  | Exited 0 stdout => Return stdout
  | Exited returncode _ => Throw (CalledProcessError returncode)
  end.

(** The whitespace of [bytes.strip]: space, tab, newline, carriage return,
    vertical tab and form feed. *)
Definition is_space (b : byte) : bool :=
  match b with
  | x20 | x09 | x0a | x0d | x0b | x0c => true
  | _ => false
  end.

Fixpoint lstrip (bs : bytes) : bytes :=
  match bs with
  | [] => []
  | b :: bs' => if is_space b then lstrip bs' else bs
  end.

Definition rstrip (bs : bytes) : bytes := reverse (lstrip (reverse bs)).

(** [bs.strip()] *)
Definition strip (bs : bytes) : bytes := rstrip (lstrip bs).

(** A continuation byte of UTF-8. *)
Definition is_cont (n : N) : bool := (0x80 <=? n)%N && (n <=? 0xBF)%N.

(** The low six bits of a continuation byte. *)
Definition low6 (n : N) : N := (n - 0x80)%N.

(** [bs.decode("utf-8")] with strict error handling: the well-formed
    sequences of UTF-8 only (no overlong forms, no surrogates, nothing
    above U+10FFFF). *)
Fixpoint decode_utf8 (bs : bytes) : result str :=
  let more (cp : N) (rest : result str) : result str :=
    match rest with
    | Return s => Return (cp :: s)
    | Throw e => Throw e
    end in
  match bs with
  | [] => Return []
  | b0 :: bs1 =>
      let n0 := Byte.to_N b0 in
      if (n0 <? 0x80)%N then more n0 (decode_utf8 bs1)
      else if (0xC2 <=? n0)%N && (n0 <=? 0xDF)%N then
        match bs1 with
        | b1 :: bs2 =>
            let n1 := Byte.to_N b1 in
            if is_cont n1
            then more ((n0 - 0xC0) * 64 + low6 n1)%N (decode_utf8 bs2)
            else Throw UnicodeDecodeError
        | _ => Throw UnicodeDecodeError
        end
      else if (0xE0 <=? n0)%N && (n0 <=? 0xEF)%N then
        match bs1 with
        | b1 :: b2 :: bs3 =>
            let n1 := Byte.to_N b1 in
            let n2 := Byte.to_N b2 in
            let second_ok :=
              if (n0 =? 0xE0)%N then (0xA0 <=? n1)%N && (n1 <=? 0xBF)%N
              else if (n0 =? 0xED)%N then (0x80 <=? n1)%N && (n1 <=? 0x9F)%N
              else is_cont n1 in
            if second_ok && is_cont n2
            then more ((n0 - 0xE0) * 4096 + low6 n1 * 64 + low6 n2)%N
                      (decode_utf8 bs3)
            else Throw UnicodeDecodeError
        | _ => Throw UnicodeDecodeError
        end
      else if (0xF0 <=? n0)%N && (n0 <=? 0xF4)%N then
        match bs1 with
        | b1 :: b2 :: b3 :: bs4 =>
            let n1 := Byte.to_N b1 in
            let n2 := Byte.to_N b2 in
            let n3 := Byte.to_N b3 in
            let second_ok :=
              if (n0 =? 0xF0)%N then (0x90 <=? n1)%N && (n1 <=? 0xBF)%N
              else if (n0 =? 0xF4)%N then (0x80 <=? n1)%N && (n1 <=? 0x8F)%N
              else is_cont n1 in
            if second_ok && is_cont n2 && is_cont n3
            then more ((n0 - 0xF0) * 262144 + low6 n1 * 4096
                       + low6 n2 * 64 + low6 n3)%N
                      (decode_utf8 bs4)
            else Throw UnicodeDecodeError
        | _ => Throw UnicodeDecodeError
        end
      else Throw UnicodeDecodeError
  end.

Definition VERSION : str := str_of "0.10.2-dev".

(** [get_git_hash()], lines 20-32, for the fate [git] of the child process
    [git rev-parse HEAD]. *)
Definition get_git_hash (git : child) : result str :=
  match check_output git with
  | Throw (CalledProcessError _) => Return (str_of "UNHASHED")
  | Throw e => Throw e
  | Return ret =>
      match decode_utf8 (strip ret) with
      | Return s => Return (take 8 s)
      | Throw e => Throw e
      end
  end.

(** [get_version(with_git_hash=False)], lines 35-37. *)
Definition get_version (git : child) (with_git_hash : bool) : result str :=
  if with_git_hash then
    match get_git_hash git with
    | Return h => Return (VERSION ++ str_of "-" ++ h)
    | Throw e => Throw e
    end
  else Return VERSION.

(** The bytes of an ASCII literal. *)
Definition bytes_of (s : string) : bytes := list_byte_of_string s.

End Version.

(* ===================================================================== *)
(** ** Vocabulary of the statements *)
(* ===================================================================== *)

(** [runs m w P]: started in [w], [m] appends some events [t] to the log and
    ends with a result [r] and a world [w'] such that [P r t w']. *)
Definition runs {A} (m : M A) (w : world)
    (P : res A -> list event -> world -> Prop) : Prop :=
  exists t, log (m w).2 = log w ++ t /\ P (m w).1 t (m w).2.

(** Projections of a trace. *)
Record upload : Type := mk_upload {
  up_client : client; up_path : string; up_bucket : string; up_key : string
}.

Definition uploads (t : list event) : list upload :=
  omap (fun ev => match ev with
                  | EUploadFile c path bucket key => Some (mk_upload c path bucket key)
                  | _ => None
                  end) t.

Definition downloads (t : list event) : list (string * string) :=
  omap (fun ev => match ev with
                  | EDownloadFile _ _ key path => Some (key, path)
                  | _ => None
                  end) t.

Definition derived (t : list event) : list (CacheArtifact * string) :=
  omap (fun ev => match ev with
                  | EDerive kind prefix => Some (kind, prefix)
                  | _ => None
                  end) t.

Definition called (t : list event) : list string :=
  omap (fun ev => match ev with
                  | ECallUploadForPrefix prefix _ _ => Some prefix
                  | _ => None
                  end) t.

Definition constructed (t : list event) : list client :=
  omap (fun ev => match ev with
                  | EClient c => Some c
                  | _ => None
                  end) t.

(** The six kinds, in the order of the six blocks of
    [upload_artifacts_for_prefix]. *)
Definition all_kinds : list CacheArtifact :=
  [names; synonyms; xrefs; relations; properties; alts].

Section UploadOneTrace.

Context (E : env) (prefix bucket version : string).
(** [given] is the client of the first five uploads, [fresh] the number of
    the next client to be constructed. *)
Context (given fresh : client).

Definition artifact_path (kind : CacheArtifact) : string :=
  get_cache_path E prefix kind version.

(** The key as the source forms it, lines 94, 103, 112, 121, 130 and 139. *)
Definition artifact_key (kind : CacheArtifact) : string :=
  match kind with
  | properties => PyStr.join prefix [PyStr.name (artifact_path kind)]
  | _ => PyStr.join prefix ["cache"; PyStr.name (artifact_path kind)]
  end.

(** The events of a block that runs to its end. *)
Definition block_trace (kind : CacheArtifact) : list event :=
  match kind with
  | alts =>
      [ EDerive kind prefix; EExists (artifact_path kind) true; EClient fresh;
        EUploadFile fresh (artifact_path kind) bucket (artifact_key kind) ]
  | _ =>
      [ EDerive kind prefix; EExists (artifact_path kind) true;
        EUploadFile given (artifact_path kind) bucket (artifact_key kind) ]
  end.

(** The three ways in which a block raises, with the events it leaves. *)
Inductive block_stops (kind : CacheArtifact) : exn -> list event -> Prop :=
  | stops_in_derivation e :
      block_stops kind e [EDerive kind prefix]
  | stops_file_missing :
      block_stops kind FileNotFoundError
        [EDerive kind prefix; EExists (artifact_path kind) false]
  | stops_in_upload e :
      block_stops kind e (block_trace kind).

(** The runs of the six blocks: all of them, or those before the block that
    raises and the events of that block. *)
Inductive blocks_outcome : res unit -> list event -> Prop :=
  | outcome_all :
      blocks_outcome (Ok tt) (concat (map block_trace all_kinds))
  | outcome_stopped before kind after e tail :
      all_kinds = before ++ kind :: after ->
      block_stops kind e tail ->
      blocks_outcome (Raise e) (concat (map block_trace before) ++ tail).

End UploadOneTrace.

(** Whether the loop of [upload_artifacts] skips a source, lines 70-75. *)
Definition skipped (uploaded : gset string)
    (whitelist blacklist : option (gset string)) (prefix : string) : bool :=
  bool_decide (prefix ∈ uploaded)
  || (truthy_set whitelist && negb (member prefix whitelist))
  || (truthy_set blacklist && member prefix blacklist).

(** The ["Contents"] of the listing of a bucket, when it has any. *)
Definition remote_contents (bucket : string) (w : world) : option (list entry) :=
  match s3 w !! bucket with
  | Some (o :: objs) => Some (map entry_of (o :: objs))
  | _ => None
  end.

(** The sources [upload_artifacts] does not skip, in the order of its loop. *)
Definition to_upload (E : env) (whitelist blacklist : option (gset string))
    (contents : list entry) (f : gmap string node) : list string :=
  List.filter
    (fun prefix =>
       negb (skipped (uploaded_prefixes_of contents) whitelist blacklist prefix))
    (map fst (sorted (iter_cached_obo E f))).

(** The events in front of the loops: client construction and listing. *)
Definition is_listing_event (ev : event) : Prop :=
  match ev with
  | EClient _ | EListObjects _ _ => True
  | _ => False
  end.

(** The events a computation adds to the log. *)
Definition new_events {A} (m : M A) (w : world) : list event :=
  drop (length (log w)) (log (m w).2).

(** That a missing artifact of one source does not abort the sibling
    sources, said of one run of [upload_artifacts]: when some check of an
    artifact file fails, every source that is not skipped is called all the
    same. *)
Definition siblings_still_processed (E : env) (bucket : string)
    (whitelist blacklist : option (gset string)) (c : option client)
    (w : world) : Prop :=
  let t := new_events (upload_artifacts E bucket whitelist blacklist c) w in
  (exists q, EExists q false ∈ t) ->
  forall contents S,
    remote_contents bucket w = Some contents ->
    S ∈ to_upload E whitelist blacklist contents (fs w) ->
    S ∈ called t.

(** The body of the loop of [download_artifacts], lines 46-54, for the
    client [s3_client] of line 43. *)
Definition download_body (E : env) (s3_client : client) (bucket : string)
    (suffix : option string) (entry : entry) : M unit :=
  let key := Key entry in
  let* _ := (if suffix_mismatch suffix key then ret tt (* pass *) else ret tt) in
  let path := PyStr.join (RAW_DIRECTORY E) [key] in
  let* _ := makedirs (PyStr.dirname path) in
  let* present := path_exists path in
  if present then ret tt (* continue *)
  else download_file s3_client bucket key path.

(** The local destination of a listed object, line 49. *)
Definition destination (E : env) (e : entry) : string :=
  PyStr.join (RAW_DIRECTORY E) [Key e].

(** The events of an iteration of that loop that finds its object there. *)
Definition skip_trace (E : env) (e : entry) : list event :=
  [ EMakedirs (PyStr.dirname (destination E e)); EExists (destination E e) true ].

(** An object is settled in a file system when its destination exists and
    the directories above it are there. *)
Definition settled (E : env) (f : gmap string node) (e : entry) : Prop :=
  PyStr.dirname (destination E e) <> ""
  /\ Forall (fun d => f !! d = Some Dir) (PyStr.ancestors (PyStr.dirname (destination E e)))
  /\ is_Some (f !! destination E e).


(** The object stored under a key of a bucket. *)
Definition object_at (s : gmap string (list s3_object)) (bucket key : string)
  : option s3_object :=
  match s !! bucket with
  | Some objs => find_object key objs
  | None => None
  end.

(** [s'] comes from [s] by writing objects under the keys [keys] of the
    bucket: the other buckets and the other keys are as in [s], and no key
    of [s] is gone. *)
Definition bucket_extends (bucket : string) (keys : list string)
    (s s' : gmap string (list s3_object)) : Prop :=
  (forall b, b <> bucket -> s' !! b = s !! b)
  /\ (forall k, k ∉ keys -> object_at s' bucket k = object_at s bucket k)
  /\ (forall k, is_Some (object_at s bucket k) -> is_Some (object_at s' bucket k)).

Section UploadOneBucket.

Context (E : env) (prefix bucket version : string).
(** The buckets at the start of the call. *)
Context (s0 : gmap string (list s3_object)).

(** The keys of the six artifacts of the source. *)
Definition artifact_keys : list string :=
  map (artifact_key E prefix version) all_kinds.

(** The buckets after the first [m] blocks have run to their end. *)
Definition blocks_done (m : nat) (s : gmap string (list s3_object)) : Prop :=
  bucket_extends bucket artifact_keys s0 s
  /\ forall i kind, i < m -> all_kinds !! i = Some kind ->
       is_Some (object_at s bucket (artifact_key E prefix version kind)).

(** What is known at the end of a call whose first [m] blocks are behind the
    events [t]. *)
Definition blocks_post (m : nat) (r : res unit) (t : list event) (w' : world)
  : Prop :=
  bucket_extends bucket artifact_keys s0 (s3 w')
  /\ (r = Ok tt -> forall kind,
        is_Some (object_at (s3 w') bucket (artifact_key E prefix version kind)))
  /\ (forall i kind, all_kinds !! i = Some kind ->
        i + 1 < m + length (derived t) ->
        is_Some (object_at (s3 w') bucket (artifact_key E prefix version kind))).

End UploadOneBucket.

(** The key under which [upload_artifacts] stores the names of a source: the
    version is the one the version resolver gives. *)
Definition names_key (E : env) (prefix : string) : string :=
  artifact_key E prefix (get_version E prefix) names.

(** The node [ns:identifier] of a graph, with its attributes. *)
Definition curie_node (nd : string * string * ExtractNames.attrs) : string * ExtractNames.attrs :=
  (nd.1.1 +:+ ":" +:+ nd.1.2, nd.2).

(** The identifier and the name of a node that has a name. *)
Definition named (nd : string * string * ExtractNames.attrs) : option (string * string) :=
  match ExtractNames.get_name nd.2 with
  | Some name => Some (nd.1.2, name)
  | None => None
  end.

(** The item [(k, v)] is the last item of [items] with the key [k]. *)
Definition last_with_key (k v : string) (items : list (string * string)) : Prop :=
  exists l1 l2, items = l1 ++ (k, v) :: l2 /\ k ∉ l2.*1.

(* ===================================================================== *)
(** * Properties *)
(* ===================================================================== *)

(** ** The string and path functions on sample inputs *)

Example endswith_ex1 : PyStr.endswith "go/cache/names.tsv" "names.tsv" = true.
Proof. reflexivity. Qed.
Example endswith_ex2 : PyStr.endswith "go/cache/xrefs.tsv" "names.tsv" = false.
Proof. reflexivity. Qed.
Example endswith_ex3 : PyStr.endswith "abc" "" = true.
Proof. reflexivity. Qed.
Example first_segment_ex1 : PyStr.first_segment "go/cache/names.tsv" = "go".
Proof. reflexivity. Qed.
Example first_segment_ex2 : PyStr.first_segment "README" = "README".
Proof. reflexivity. Qed.
Example dirname_ex1 : PyStr.dirname "/raw/go/cache/names.tsv" = "/raw/go/cache".
Proof. reflexivity. Qed.
Example dirname_ex2 : PyStr.dirname "/names.tsv" = "/".
Proof. reflexivity. Qed.
Example dirname_ex3 : PyStr.dirname "names.tsv" = "".
Proof. reflexivity. Qed.
Example dirname_ex4 : PyStr.dirname "/raw//x" = "/raw".
Proof. reflexivity. Qed.
Example join_ex1 : PyStr.join "go" ["cache"; "go.mapping.tsv"] = "go/cache/go.mapping.tsv".
Proof. reflexivity. Qed.
Example join_ex2 : PyStr.join "/raw" ["go/cache/x.tsv"] = "/raw/go/cache/x.tsv".
Proof. reflexivity. Qed.
Example join_ex3 : PyStr.join "/raw/" ["x.tsv"] = "/raw/x.tsv".
Proof. reflexivity. Qed.
Example join_ex4 : PyStr.join "/raw" ["/abs/x.tsv"] = "/abs/x.tsv".
Proof. reflexivity. Qed.
Example join_ex5 : PyStr.join "go" ["go.properties.tsv"] = "go/go.properties.tsv".
Proof. reflexivity. Qed.
Example join_ex6 : PyStr.join "" ["cache"; "names.tsv"] = "cache/names.tsv".
Proof. reflexivity. Qed.
Example name_ex1 : PyStr.name "/raw/go/1.0/go.mapping.tsv" = "go.mapping.tsv".
Proof. reflexivity. Qed.
Example ancestors_ex1 :
  PyStr.ancestors "/raw/go/cache" = ["/raw"; "/raw/go"; "/raw/go/cache"].
Proof. reflexivity. Qed.
Example ancestors_ex2 : PyStr.ancestors "raw/go" = ["raw"; "raw/go"].
Proof. reflexivity. Qed.

(** ** Strings and paths *)

Lemma app_String c s t : String c s +:+ t = String c (s +:+ t).
Proof. reflexivity. Qed.

Lemma app_assoc_string (s t u : string) : (s +:+ t) +:+ u = s +:+ (t +:+ u).
Proof. induction s as [|c s IH]; [done|]. by rewrite !app_String, IH. Qed.

Lemma app_empty_inv (s t : string) : s +:+ t = "" -> s = "" /\ t = "".
Proof. destruct s; [done|]. by rewrite app_String. Qed.

(** A suffix of at most the length of a non-empty tail is looked for in the
    tail. *)
Lemma endswith_sep_app (s t : string) :
  t <> "" -> PyStr.endswith (s +:+ t) "/" = PyStr.endswith t "/".
Proof.
  intros Ht. induction s as [|c s IH]; [done|].
  rewrite app_String. cbn [PyStr.endswith]. rewrite IH.
  destruct (String.eqb_spec (String c (s +:+ t)) "/") as [Heq|]; [|done].
  injection Heq as _ Heq. by apply app_empty_inv in Heq as [_ ?].
Qed.

Lemma startswith_sep_String c s :
  PyStr.startswith (String c s) "/" = PyStr.is_sep c.
Proof.
  unfold PyStr.startswith, PyStr.is_sep, PyStr.sep.
  change (String.prefix "/" (String c s))
    with (if ascii_dec "/" c then String.prefix "" s else false).
  destruct (ascii_dec "/" c) as [<-|Hne].
  - rewrite bool_decide_true by done. by destruct s.
  - rewrite bool_decide_false by congruence. done.
Qed.

(** The last component of a path does not start with a separator. *)
Lemma rsplit_sep_tail_no_sep (s : string) :
  PyStr.startswith (snd (PyStr.rsplit_sep s)) "/" = false.
Proof.
  induction s as [|c s IH]; [done|].
  cbn [PyStr.rsplit_sep]. destruct (PyStr.rsplit_sep s) as [h t]. cbn in IH.
  destruct (PyStr.is_sep c) eqn:Hc; [done|].
  destruct (String.eqb h ""); [|done].
  cbn [snd]. by rewrite startswith_sep_String.
Qed.

Lemma name_no_leading_sep (p : string) : PyStr.startswith (PyStr.name p) "/" = false.
Proof.
  unfold PyStr.name. destruct (String.eqb p "."); [done|].
  apply rsplit_sep_tail_no_sep.
Qed.

(** [os.path.join(prefix, name)] and [os.path.join(prefix, "cache", name)]
    for a non-empty [prefix] that does not end with a separator and a [name]
    that does not start with one. *)
Lemma join_direct (prefix name : string) :
  prefix <> "" -> PyStr.endswith prefix "/" = false ->
  PyStr.startswith name "/" = false ->
  PyStr.join prefix [name] = prefix +:+ "/" +:+ name.
Proof.
  intros Hne Hend Hname. unfold PyStr.join, PyStr.join2. cbn [fold_left].
  rewrite Hname, Hend. apply String.eqb_neq in Hne. by rewrite Hne.
Qed.

Lemma join_cache (prefix name : string) :
  prefix <> "" -> PyStr.endswith prefix "/" = false ->
  PyStr.startswith name "/" = false ->
  PyStr.join prefix ["cache"; name] = prefix +:+ "/cache/" +:+ name.
Proof.
  intros Hne Hend Hname. unfold PyStr.join. cbn [fold_left].
  change (PyStr.join2 prefix "cache") with (PyStr.join prefix ["cache"]).
  rewrite join_direct by done.
  unfold PyStr.join2. rewrite Hname.
  rewrite endswith_sep_app by done. cbn [PyStr.endswith String.eqb Ascii.eqb Bool.eqb].
  destruct (String.eqb_spec (prefix +:+ "/" +:+ "cache") "") as [Heq|_].
  { by apply app_empty_inv in Heq as [? _]. }
  cbn [orb]. by rewrite !app_assoc_string.
Qed.

(** ** Rules for [runs] *)

Lemma runs_ret {A} (a : A) w (P : res A -> list event -> world -> Prop) :
  P (Ok a) [] w -> runs (ret a) w P.
Proof. intros HP. exists []. cbn. by rewrite app_nil_r. Qed.

Lemma runs_raise {A} (e : exn) w (P : res A -> list event -> world -> Prop) :
  P (Raise e) [] w -> runs (raise e) w P.
Proof. intros HP. exists []. cbn. by rewrite app_nil_r. Qed.

Lemma runs_bind {A B} (m : M A) (k : A -> M B) w
    (P : res B -> list event -> world -> Prop) :
  runs m w (fun r t1 w1 =>
    match r with
    | Ok a => runs (k a) w1 (fun r2 t2 w2 => P r2 (t1 ++ t2) w2)
    | Raise e => P (Raise e) t1 w1
    end) ->
  runs (bind m k) w P.
Proof.
  intros (t1 & Hlog & H). unfold runs, bind.
  destruct (m w) as [[a|e] w1]; cbn in *.
  - destruct H as (t2 & Hlog2 & H). exists (t1 ++ t2).
    split; [|done]. by rewrite Hlog2, Hlog, app_assoc.
  - by exists t1.
Qed.

Lemma runs_conseq {A} (m : M A) w (P Q : res A -> list event -> world -> Prop) :
  runs m w P -> (forall r t w', P r t w' -> Q r t w') -> runs m w Q.
Proof. intros (t & Hlog & H) HPQ. exists t. eauto. Qed.

Lemma runs_emit (e : event) w (P : res unit -> list event -> world -> Prop) :
  P (Ok tt) [e] (mk_world (fs w) (s3 w) (clients w) (log w ++ [e])) ->
  runs (emit e) w P.
Proof. intros HP. by exists [e]. Qed.

Lemma runs_boto3_client w (P : res client -> list event -> world -> Prop) :
  P (Ok (clients w)) [EClient (clients w)]
    (mk_world (fs w) (s3 w) (S (clients w)) (log w ++ [EClient (clients w)])) ->
  runs boto3_client w P.
Proof. intros HP. by exists [EClient (clients w)]. Qed.

Lemma runs_path_exists path w (P : res bool -> list event -> world -> Prop) :
  (forall found, found = bool_decide (is_Some (fs w !! path)) ->
     P (Ok found) [EExists path found]
       (mk_world (fs w) (s3 w) (clients w) (log w ++ [EExists path found]))) ->
  runs (path_exists path) w P.
Proof. intros HP. eexists. split; [reflexivity|]. by apply HP. Qed.

Lemma runs_derivation E kind prefix w (P : res unit -> list event -> world -> Prop) :
  (forall r f, derive E kind prefix (fs w) = (r, f) ->
     P r [EDerive kind prefix]
       (mk_world f (s3 w) (clients w) (log w ++ [EDerive kind prefix]))) ->
  runs (derivation E kind prefix) w P.
Proof.
  intros HP. unfold runs, derivation, bind, emit. cbn.
  destruct (derive E kind prefix (fs w)) as [r f] eqn:Hd.
  exists [EDerive kind prefix]. split; [done|]. by apply HP.
Qed.

(** [s3_upload_file] logs its call; it changes the bucket alone, and only
    when it returns. *)
Lemma runs_s3_upload_file c path bucket key w
    (P : res unit -> list event -> world -> Prop) :
  (forall r w', fs w' = fs w -> clients w' = clients w ->
     P r [EUploadFile c path bucket key] w') ->
  runs (s3_upload_file c path bucket key) w P.
Proof.
  intros HP. unfold runs, s3_upload_file, bind, emit. cbn.
  exists [EUploadFile c path bucket key].
  destruct (fs w !! path) as [[body|]|]; cbn;
    [destruct (s3 w !! bucket); cbn|..]; (split; [done|]); by apply HP.
Qed.

Lemma runs_upload_file path bucket key (c : option client) w
    (P : res unit -> list event -> world -> Prop) :
  (forall r w', fs w' = fs w ->
     clients w' = match c with Some _ => clients w | None => S (clients w) end ->
     P r (match c with
          | Some h => [EUploadFile h path bucket key]
          | None => [EClient (clients w); EUploadFile (clients w) path bucket key]
          end) w') ->
  runs (upload_file path bucket key c) w P.
Proof.
  intros HP. unfold upload_file. apply runs_bind. destruct c as [h|].
  - apply runs_ret, runs_s3_upload_file. intros. by apply HP.
  - apply runs_boto3_client, runs_s3_upload_file. intros. by apply HP.
Qed.

(** ** The runs of [upload_artifacts_for_prefix] *)

(** The first half of a block: derivation, then the check that the file is
    there. *)
Lemma runs_checked E prefix version kind (k : M unit) w
    (P : res unit -> list event -> world -> Prop) :
  let path := get_cache_path E prefix kind version in
  (forall e w1, P (Raise e) [EDerive kind prefix] w1) ->
  (forall w1, P (Raise FileNotFoundError)
                [EDerive kind prefix; EExists path false] w1) ->
  (forall w1, clients w1 = clients w ->
     runs k w1 (fun r t w' =>
       P r ([EDerive kind prefix; EExists path true] ++ t) w')) ->
  runs (let* _ := derivation E kind prefix in
        let* present := path_exists path in
        let* _ := (if negb present then raise FileNotFoundError else ret tt) in
        k) w P.
Proof.
  intros path Hderive Hmissing Hgo.
  apply runs_bind, runs_derivation. intros [[]|e] f Hd; [|apply Hderive].
  apply runs_bind, runs_path_exists. intros [|] Hfound; apply runs_bind; cbn.
  - apply runs_ret. eapply runs_conseq; [by apply Hgo|].
    intros r t w' HP. by rewrite app_nil_l.
  - apply runs_raise. apply Hmissing.
Qed.

Ltac stopped_at before kind after :=
  match goal with
  | |- blocks_outcome ?E ?p ?b ?v ?g ?f (Raise ?e) _ =>
      apply (outcome_stopped E p b v g f before kind after e _ eq_refl);
      constructor
  end.

Ltac stopped :=
  first
    [ stopped_at (@nil CacheArtifact) names [synonyms; xrefs; relations; properties; alts]
    | stopped_at [names] synonyms [xrefs; relations; properties; alts]
    | stopped_at [names; synonyms] xrefs [relations; properties; alts]
    | stopped_at [names; synonyms; xrefs] relations [properties; alts]
    | stopped_at [names; synonyms; xrefs; relations] properties [alts]
    | stopped_at [names; synonyms; xrefs; relations; properties] alts (@nil CacheArtifact) ].

(** The six blocks, one after the other; [n] is the number of the client
    that the last block constructs. *)
Ltac six_blocks n :=
  do 5 (apply runs_checked;
        [ intros; eexists; split; [reflexivity|]; stopped
        | intros; eexists; split; [reflexivity|]; stopped
        | intros ? ?; apply runs_bind, runs_upload_file;
          intros [[]|?] ? _ ?;
          [| eexists; split; [reflexivity|]; stopped ] ]);
  apply runs_checked;
    [ intros; eexists; split; [reflexivity|]; stopped
    | intros; eexists; split; [reflexivity|]; stopped
    | intros ? ?; apply runs_upload_file; intros [[]|?] ? _ ?;
      (eexists; split; [reflexivity|]);
      match goal with
      | |- context [EClient (clients ?x)] =>
          replace (clients x) with n by (cbn in *; congruence)
      end;
      [ apply outcome_all | stopped ] ].

(** One call of [upload_artifacts_for_prefix] logs its entry, constructs a
    client when none is given, and then runs the six blocks in order until
    one of them raises. *)
Lemma upload_artifacts_for_prefix_runs
    E prefix bucket (c : option client) (v : option string) w :
  runs (upload_artifacts_for_prefix E prefix bucket c v) w (fun r t w' =>
    let version := match v with None => get_version E prefix | Some v => v end in
    let given := match c with Some h => h | None => clients w end in
    let fresh := match c with Some _ => clients w | None => S (clients w) end in
    exists t',
      t = ECallUploadForPrefix prefix bucket c
            :: match c with None => [EClient (clients w)] | Some _ => [] end ++ t'
      /\ blocks_outcome E prefix bucket version given fresh r t').
Proof.
  unfold upload_artifacts_for_prefix.
  unfold get_id_name_mapping, get_id_synonyms_mapping, get_xrefs_df,
    get_relations_df, get_properties_df, get_id_to_alts.
  set (version := match v with None => get_version E prefix | Some v => v end).
  apply runs_bind, runs_emit. apply runs_bind.
  destruct c as [h|].
  - apply runs_ret. six_blocks (clients w).
  - apply runs_boto3_client. six_blocks (S (clients w)).
Qed.

(** Case analysis on the runs of the six blocks: the run to the end, and for
    each kind the three ways in which its block raises. *)
Ltac outcome_cases H :=
  let before := fresh "before" in
  let Hsplit := fresh "Hsplit" in
  let Hstop := fresh "Hstop" in
  inversion H as [|before ? ? ? ? Hsplit Hstop]; subst; clear H;
  [| unfold all_kinds in Hsplit;
     do 6 (try (destruct before as [|? before]; cbn in Hsplit;
                [injection Hsplit as <- <-|
                 injection Hsplit as <- Hsplit]));
     [..| by destruct before];
     inversion Hstop; subst; clear Hstop ].

(** The first block on the states: when the derivation of the names returns
    and leaves no file at their cache path, the call raises
    [FileNotFoundError] in the state the derivation left, having logged its
    entry, the derivation and the failed check. *)
Lemma upload_one_names_missing E prefix bucket (h : client) (v : option string) w f :
  let version := match v with None => get_version E prefix | Some v => v end in
  let path := get_cache_path E prefix names version in
  derive E names prefix (fs w) = (Ok tt, f) ->
  f !! path = None ->
  upload_artifacts_for_prefix E prefix bucket (Some h) v w
  = (Raise FileNotFoundError,
     mk_world f (s3 w) (clients w)
       (log w ++ [ECallUploadForPrefix prefix bucket (Some h);
                  EDerive names prefix; EExists path false])).
Proof.
  intros version path Hd Hnone.
  unfold upload_artifacts_for_prefix, get_id_name_mapping, derivation.
  unfold bind at 1 2 3 4 5. unfold emit, ret, path_exists. cbn.
  rewrite Hd. cbn. fold version. fold path. rewrite Hnone.
  rewrite bool_decide_false by (by intros [? ?]).
  cbn. by rewrite <- !app_assoc.
Qed.

(** The entry event and the construction of a default client, in front of
    the events of the blocks. *)
Lemma upload_one_header prefix bucket (c : option client) n (l t : list event) :
  t = ECallUploadForPrefix prefix bucket c
      :: match c with None => [EClient n] | Some _ => [] end ++ l ->
  called t = prefix :: called l
  /\ derived t = derived l
  /\ uploads t = uploads l
  /\ (forall p b, EExists p b ∈ t -> EExists p b ∈ l)
  /\ (l <> [] -> last t = last l).
Proof.
  intros ->. destruct c; cbn; repeat split; try done.
  - intros p b Hp. by apply elem_of_cons in Hp as [?|?].
  - by destruct l.
  - intros p b Hp. apply elem_of_cons in Hp as [?|Hp]; [done|].
    by apply elem_of_cons in Hp as [?|?].
  - by destruct l.
Qed.

(** C4. In every call of [upload_artifacts_for_prefix] the kinds are derived
    in the order names, synonyms, xrefs, relations, properties, alts, each for
    the given source, and a call that returns has derived and uploaded all
    six.  When the check that follows a derivation finds no file, the call
    raises [FileNotFoundError] at once: the check is its last event, it was
    made on the cache path of the kind just derived, the kinds derived are
    that kind and those before it, and the files uploaded are those of the
    kinds before it. *)
Theorem upload_one_fixed_order_fail_fast
    (E : env) (prefix bucket : string) (c : option client) (v : option string)
    (w : world) :
  runs (upload_artifacts_for_prefix E prefix bucket c v) w (fun r t w' =>
    let version := match v with None => get_version E prefix | Some v => v end in
    let path := artifact_path E prefix version in
    derived t `prefix_of` map (fun kind => (kind, prefix)) all_kinds
    /\ (r = Ok tt ->
        derived t = map (fun kind => (kind, prefix)) all_kinds
        /\ map up_path (uploads t) = map path all_kinds)
    /\ (forall p, EExists p false ∈ t ->
        r = Raise FileNotFoundError
        /\ last t = Some (EExists p false)
        /\ exists before kind after,
             all_kinds = before ++ kind :: after
             /\ p = path kind
             /\ derived t = map (fun kind => (kind, prefix)) (before ++ [kind])
             /\ map up_path (uploads t) = map path before)).
Proof.
  eapply runs_conseq; [apply upload_artifacts_for_prefix_runs|].
  intros r t w' (t' & -> & Hout). cbv zeta in *.
  set (version := match v with None => get_version E prefix | Some v => v end) in *.
  pose proof (fun l => upload_one_header prefix bucket c (clients w) l _ eq_refl) as Hh.
  assert (Hd := fun l => proj1 (proj2 (Hh l))).
  assert (Hu := fun l => proj1 (proj2 (proj2 (Hh l)))).
  assert (Hin := fun l => proj1 (proj2 (proj2 (proj2 (Hh l))))).
  assert (Hlast := fun l => proj2 (proj2 (proj2 (proj2 (Hh l))))).
  clear Hh.
  outcome_cases Hout; rewrite Hd, Hu; cbn;
    (split; [by eexists|]); (split; [done|]);
    intros p Hp%Hin; cbn in Hp;
    repeat (apply elem_of_cons in Hp as [Hp|Hp]; [try discriminate Hp|]);
    try (by apply elem_of_nil in Hp);
    injection Hp as ->;
    (split; [done|]); (split; [by rewrite Hlast|]).
  - by exists [], names, [synonyms; xrefs; relations; properties; alts].
  - by exists [names], synonyms, [xrefs; relations; properties; alts].
  - by exists [names; synonyms], xrefs, [relations; properties; alts].
  - by exists [names; synonyms; xrefs], relations, [properties; alts].
  - by exists [names; synonyms; xrefs; relations], properties, [alts].
  - by exists [names; synonyms; xrefs; relations; properties], alts, [].
Qed.

Lemma upload_one_fixed_order_fail_fast_witness :
  let run := upload_artifacts_for_prefix Sample.xrefs_broken_env "hp" "bkt"
               (Some 7) None Sample.w_chebi in
  run.1 = Raise FileNotFoundError
  /\ last (log run.2) = Some (EExists "/raw/hp/1.0/xrefs.tsv" false)
  /\ derived (log run.2) = [(names, "hp"); (synonyms, "hp"); (xrefs, "hp")].
Proof.
  intros run.
  destruct (upload_one_fixed_order_fail_fast Sample.xrefs_broken_env "hp" "bkt"
              (Some 7) None Sample.w_chebi) as (t & Hlog & _ & _ & Hmiss).
  fold run in Hlog, Hmiss. change (log Sample.w_chebi) with (@nil event) in Hlog.
  rewrite app_nil_l in Hlog. rewrite <- Hlog in Hmiss.
  destruct (Hmiss "/raw/hp/1.0/xrefs.tsv") as (Hr & Hlast & _).
  - vm_compute. do 8 apply list_elem_of_further. apply list_elem_of_here.
  - split; [exact Hr|]. split; [exact Hlast|]. reflexivity.
Defined.

(** ** Keys and clients of the uploads of one source *)

Lemma artifact_key_format E prefix version kind :
  prefix <> "" -> PyStr.endswith prefix "/" = false ->
  artifact_key E prefix version kind
  = match kind with
    | properties =>
        prefix +:+ "/" +:+ PyStr.name (get_cache_path E prefix kind version)
    | _ =>
        prefix +:+ "/cache/" +:+ PyStr.name (get_cache_path E prefix kind version)
    end.
Proof.
  intros Hne Hend. unfold artifact_key, artifact_path.
  destruct kind;
    (apply join_cache || apply join_direct); auto using name_no_leading_sep.
Qed.

(** C6. For a source identifier that is not empty and does not end with a
    separator, the uploads of one call of [upload_artifacts_for_prefix] are,
    in order, the cache files of names, synonyms, xrefs, relations,
    properties and alts, under the keys ["{prefix}/cache/{filename}"] for
    names, synonyms, xrefs, relations and alts and ["{prefix}/{filename}"]
    for properties, where the file name is the last component of the cache
    path.  A call that raises has made some first uploads of this list; a
    call that returns has made all six. *)
Theorem upload_one_remote_keys
    (E : env) (prefix bucket : string) (c : option client) (v : option string)
    (w : world) :
  prefix <> "" -> PyStr.endswith prefix "/" = false ->
  runs (upload_artifacts_for_prefix E prefix bucket c v) w (fun r t w' =>
    let version := match v with None => get_version E prefix | Some v => v end in
    let path kind := get_cache_path E prefix kind version in
    let filename kind := PyStr.name (path kind) in
    let expected :=
      [ (path names, prefix +:+ "/cache/" +:+ filename names);
        (path synonyms, prefix +:+ "/cache/" +:+ filename synonyms);
        (path xrefs, prefix +:+ "/cache/" +:+ filename xrefs);
        (path relations, prefix +:+ "/cache/" +:+ filename relations);
        (path properties, prefix +:+ "/" +:+ filename properties);
        (path alts, prefix +:+ "/cache/" +:+ filename alts) ] in
    map (fun u => (up_path u, up_key u)) (uploads t) `prefix_of` expected
    /\ (r = Ok tt -> map (fun u => (up_path u, up_key u)) (uploads t) = expected)
    /\ Forall (fun u => up_bucket u = bucket) (uploads t)).
Proof.
  intros Hne Hend.
  eapply runs_conseq; [apply upload_artifacts_for_prefix_runs|].
  intros r t w' (t' & -> & Hout). cbv zeta in *.
  set (version := match v with None => get_version E prefix | Some v => v end) in *.
  rewrite (proj1 (proj2 (proj2 (upload_one_header prefix bucket c (clients w) t' _ eq_refl)))).
  pose proof (fun kind => artifact_key_format E prefix version kind Hne Hend) as Hk.
  outcome_cases Hout; cbn -[artifact_key]; rewrite ?Hk;
    (split; [by eexists|]); (split; [done|]); repeat constructor.
Qed.

Lemma upload_one_remote_keys_witness :
  let run := upload_artifacts_for_prefix Sample.good_env "go" "bkt" None None
               Sample.w_chebi in
  run.1 = Ok tt
  /\ map up_key (uploads (log run.2))
     = [ "go/cache/names.tsv"; "go/cache/synonyms.tsv"; "go/cache/xrefs.tsv";
         "go/cache/relations.tsv"; "go/properties.tsv"; "go/cache/alts.tsv" ].
Proof.
  intros run.
  destruct (upload_one_remote_keys Sample.good_env "go" "bkt" None None
              Sample.w_chebi) as (t & Hlog & _ & Hok & _).
  - discriminate.
  - reflexivity.
  - fold run in Hlog, Hok. change (log Sample.w_chebi) with (@nil event) in Hlog.
    rewrite app_nil_l in Hlog. rewrite <- Hlog in Hok.
    split; [reflexivity|].
    specialize (Hok eq_refl).
    apply (f_equal (map snd)) in Hok. rewrite map_map in Hok. exact Hok.
Defined.

(** C8. When a client [h] is given to [upload_artifacts_for_prefix], the
    uploads of names, synonyms, xrefs, relations and properties are made with
    [h], and the upload of alts is made with a client constructed for it:
    the only client the call constructs, constructed exactly when the upload
    of alts is reached, and different from [h] when [h] was constructed
    before the call. *)
Theorem upload_one_alts_uses_default_client
    (E : env) (prefix bucket : string) (h : client) (v : option string)
    (w : world) :
  runs (upload_artifacts_for_prefix E prefix bucket (Some h) v) w (fun r t w' =>
    let version := match v with None => get_version E prefix | Some v => v end in
    let path kind := get_cache_path E prefix kind version in
    let expected :=
      [ (path names, h); (path synonyms, h); (path xrefs, h);
        (path relations, h); (path properties, h); (path alts, clients w) ] in
    map (fun u => (up_path u, up_client u)) (uploads t) `prefix_of` expected
    /\ (r = Ok tt ->
        map (fun u => (up_path u, up_client u)) (uploads t) = expected)
    /\ constructed t
       = (if decide (length (uploads t) = 6) then [clients w] else [])
    /\ (h < clients w ->
        forall u, uploads t !! 5 = Some u -> up_client u <> h)).
Proof.
  eapply runs_conseq; [apply upload_artifacts_for_prefix_runs|].
  intros r t w' (t' & -> & Hout). cbv zeta in *.
  set (version := match v with None => get_version E prefix | Some v => v end) in *.
  cbn [app]. change (uploads (?e :: t')) with (uploads t').
  change (constructed (?e :: t')) with (constructed t').
  outcome_cases Hout; cbn -[artifact_key];
    (split; [by eexists|]); (split; [done|]); (split; [done|]);
    intros Hlt u Hu; try discriminate Hu; injection Hu as <-; cbn; lia.
Qed.

Lemma upload_one_alts_uses_default_client_witness :
  let w := mk_world ∅ {[ "bkt" := Sample.chebi_objects ]} 1 [EClient 0] in
  let run := upload_artifacts_for_prefix Sample.good_env "go" "bkt" (Some 0) None w in
  run.1 = Ok tt
  /\ map up_client (uploads (drop 1 (log run.2))) = [0; 0; 0; 0; 0; 1].
Proof.
  intros w run.
  destruct (upload_one_alts_uses_default_client Sample.good_env "go" "bkt" 0 None w)
    as (t & Hlog & _ & Hok & _).
  subst run.
  assert (Ht : drop 1 (log (upload_artifacts_for_prefix Sample.good_env "go" "bkt"
                              (Some 0) None w).2) = t).
  { etrans; [exact (f_equal (drop 1) Hlog)|reflexivity]. }
  split; [reflexivity|]. etrans; [exact (f_equal (fun l => map up_client (uploads l)) Ht)|].
  specialize (Hok eq_refl).
  apply (f_equal (map snd)) in Hok. rewrite map_map in Hok. exact Hok.
Defined.

(** ** The loop of [upload_artifacts] *)

Lemma for_each_ext {A} (l : list A) (body1 body2 : A -> M unit) w :
  (forall x w1, body1 x w1 = body2 x w1) ->
  for_each l body1 w = for_each l body2 w.
Proof.
  intros Hext. revert w. induction l as [|x l IH]; intros w; [done|].
  cbn. unfold bind. rewrite Hext. destruct (body2 x w) as [[[]|e] w1]; auto.
Qed.

(** A loop whose body starts with [continue] under a condition is the loop
    over the elements that do not meet the condition. *)
Lemma for_each_continue {A B} (l : list A) (key : A -> B) (skip : B -> bool)
    (body : B -> M unit) w :
  for_each l (fun x => if skip (key x) then ret tt else body (key x)) w
  = for_each (List.filter (fun y => negb (skip y)) (map key l)) body w.
Proof.
  revert w. induction l as [|x l IH]; intros w; [done|].
  cbn. destruct (skip (key x)); cbn.
  - apply IH.
  - unfold bind. destruct (body (key x) w) as [[[]|e] w1]; auto.
Qed.

(** [upload_artifacts] is: resolve the client, list the bucket, take the
    contents, and call [upload_artifacts_for_prefix] on the sources of
    [to_upload], in order. *)
Lemma upload_artifacts_loop E bucket whitelist blacklist (c : option client) w :
  upload_artifacts E bucket whitelist blacklist c w
  = (let* s3_client :=
       match c with None => boto3_client | Some h => ret h end in
     let* all_objects := list_objects s3_client bucket in
     let* contents := getitem_Contents all_objects in
     fun w1 =>
       for_each (to_upload E whitelist blacklist contents (fs w1))
         (fun prefix =>
            upload_artifacts_for_prefix E prefix bucket (Some s3_client) None) w1) w.
Proof.
  unfold upload_artifacts, bind.
  destruct (match c with None => boto3_client | Some h => ret h end w)
    as [[s3_client|e] w0]; [|done].
  destruct (list_objects s3_client bucket w0) as [[all_objects|e] w1]; [|done].
  destruct (getitem_Contents all_objects w1) as [[contents|e] w2]; [|done].
  unfold to_upload.
  rewrite <- (for_each_continue (sorted (iter_cached_obo E (fs w2))) fst
                (skipped (uploaded_prefixes_of contents) whitelist blacklist)
                (fun prefix =>
                   upload_artifacts_for_prefix E prefix bucket (Some s3_client) None)).
  apply for_each_ext. intros [prefix path] w3. unfold skipped. cbn [fst].
  destruct (bool_decide (prefix ∈ uploaded_prefixes_of contents)); [done|].
  destruct (truthy_set whitelist && negb (member prefix whitelist)); [done|].
  by destruct (truthy_set blacklist && member prefix blacklist).
Qed.

Lemma runs_eq {A} (m1 m2 : M A) w (P : res A -> list event -> world -> Prop) :
  m1 w = m2 w -> runs m2 w P -> runs m1 w P.
Proof. unfold runs. by intros ->. Qed.

(** The rule of a loop: [I done t w] holds when the elements [done] have
    been processed with events [t]. *)
Lemma runs_for_each {A} (l : list A) (body : A -> M unit) w
    (I : list A -> list event -> world -> Prop)
    (P : res unit -> list event -> world -> Prop) :
  I [] [] w ->
  (forall done x rest t1 w1, l = done ++ x :: rest -> I done t1 w1 ->
     runs (body x) w1 (fun r t2 w2 =>
       match r with
       | Ok _ => I (done ++ [x]) (t1 ++ t2) w2
       | Raise e => P (Raise e) (t1 ++ t2) w2
       end)) ->
  (forall t w', I l t w' -> P (Ok tt) t w') ->
  runs (for_each l body) w P.
Proof.
  intros Hinit Hstep Hend.
  cut (forall rest done t1 w1, l = done ++ rest -> I done t1 w1 ->
         runs (for_each rest body) w1 (fun r t w' => P r (t1 ++ t) w')).
  { intros Hgen. apply (Hgen l [] [] w); done. }
  induction rest as [|x rest IH]; intros done t1 w1 Hl HI.
  - apply runs_ret. rewrite !app_nil_r in *. subst. by apply Hend.
  - cbn [for_each]. apply runs_bind.
    eapply runs_conseq; [by eapply Hstep|].
    intros [[]|e] t2 w2 H; [|done].
    eapply runs_conseq.
    + apply (IH (done ++ [x]) (t1 ++ t2) w2); [|done].
      by rewrite <- app_assoc.
    + intros r t w' HP. cbn beta in *. by rewrite app_assoc.
Qed.

Lemma runs_list_objects c bucket w (P : res response -> list event -> world -> Prop) :
  (forall w1, fs w1 = fs w -> s3 w1 = s3 w -> clients w1 = clients w ->
     match s3 w !! bucket with
     | None => P (Raise (ClientError "NoSuchBucket")) [EListObjects c bucket] w1
     | Some [] => P (Ok (mk_response None)) [EListObjects c bucket] w1
     | Some objs =>
         P (Ok (mk_response (Some (map entry_of objs)))) [EListObjects c bucket] w1
     end) ->
  runs (list_objects c bucket) w P.
Proof.
  intros HP. unfold runs, list_objects, bind, emit. cbn.
  exists [EListObjects c bucket].
  specialize (HP (mk_world (fs w) (s3 w) (clients w) (log w ++ [EListObjects c bucket]))
                 eq_refl eq_refl eq_refl).
  destruct (s3 w !! bucket) as [[|o objs]|]; cbn; by split.
Qed.

(** What one call of [upload_artifacts_for_prefix] shows of itself in the
    log. *)
Lemma upload_one_summary E prefix bucket (c : option client) (v : option string) w :
  runs (upload_artifacts_for_prefix E prefix bucket c v) w (fun r t w' =>
    called t = [prefix]
    /\ Forall (fun kp => kp.2 = prefix) (derived t)
    /\ (forall q, EExists q false ∈ t ->
        r = Raise FileNotFoundError /\ last t = Some (EExists q false))).
Proof.
  eapply runs_conseq; [apply upload_artifacts_for_prefix_runs|].
  intros r t w' (t' & -> & Hout). cbv zeta in *.
  pose proof (fun l => upload_one_header prefix bucket c (clients w) l _ eq_refl) as Hh.
  assert (Hcall := fun l => proj1 (Hh l)).
  assert (Hd := fun l => proj1 (proj2 (Hh l))).
  assert (Hin := fun l => proj1 (proj2 (proj2 (proj2 (Hh l))))).
  assert (Hlast := fun l => proj2 (proj2 (proj2 (proj2 (Hh l))))).
  clear Hh.
  outcome_cases Hout; rewrite Hcall, Hd; cbn;
    (split; [done|]); (split; [repeat constructor|]);
    intros p Hp%Hin; cbn in Hp;
    repeat (apply elem_of_cons in Hp as [Hp|Hp]; [try discriminate Hp|]);
    try (by apply elem_of_nil in Hp);
    injection Hp as ->; (split; [done|]); by rewrite Hlast.
Qed.

(** The loop over the sources that are not skipped: the sources are called
    in order; the loop ends at the first call that raises. *)
Lemma upload_loop_runs E bucket (h : client) (l : list string) w :
  runs (for_each l (fun prefix =>
          upload_artifacts_for_prefix E prefix bucket (Some h) None)) w
    (fun r t w' =>
       called t `prefix_of` l
       /\ (r = Ok tt -> called t = l)
       /\ Forall (fun kp => kp.2 ∈ called t) (derived t)
       /\ (forall q, EExists q false ∈ t ->
           r = Raise FileNotFoundError
           /\ last t = Some (EExists q false)
           /\ exists before S after,
                l = before ++ S :: after /\ called t = before ++ [S])).
Proof.
  apply (runs_for_each l _ w (fun done t w1 =>
           called t = done
           /\ Forall (fun kp => kp.2 ∈ done) (derived t)
           /\ (forall q, EExists q false ∉ t))).
  - split; [done|]. split; [constructor|]. intros q Hq. by apply elem_of_nil in Hq.
  - intros done x rest t1 w1 -> (Hcalled & Hderived & Hnone).
    eapply runs_conseq; [apply upload_one_summary|].
    intros r t2 w2 (Hc2 & Hd2 & Hmiss).
    assert (Hc : called (t1 ++ t2) = done ++ [x]).
    { unfold called in *. by rewrite omap_app, Hcalled, Hc2. }
    assert (Hd : Forall (fun kp => kp.2 ∈ done ++ [x]) (derived (t1 ++ t2))).
    { unfold derived in *. rewrite omap_app. apply Forall_app. split.
      - eapply Forall_impl; [exact Hderived|]. intros kp ?. apply elem_of_app. by left.
      - eapply Forall_impl; [exact Hd2|]. intros kp ->. apply elem_of_app. right.
        apply list_elem_of_here. }
    destruct r as [[]|e].
    + split; [done|]. split; [done|].
      intros q [Hq|Hq]%elem_of_app; [by apply Hnone in Hq|].
      by apply Hmiss in Hq as [? _].
    + rewrite Hc. split; [by apply prefix_app, prefix_cons, prefix_nil|].
      split; [done|]. split; [done|].
      intros q [Hq|Hq]%elem_of_app; [by apply Hnone in Hq|].
      destruct (Hmiss q Hq) as [Hr Hlast]. split; [done|].
      split; [|by exists done, x, rest].
      rewrite last_app, Hlast. done.
  - intros t w' (Hcalled & Hderived & Hnone). rewrite Hcalled.
    split; [done|]. split; [done|]. split; [done|].
    intros q Hq. by apply Hnone in Hq.
Qed.

(** Client constructions and listings in front of a trace do not show in its
    projections. *)
Lemma header_transparent (hdr t : list event) :
  Forall is_listing_event hdr ->
  called (hdr ++ t) = called t
  /\ derived (hdr ++ t) = derived t
  /\ (forall q b, EExists q b ∈ hdr ++ t -> EExists q b ∈ t)
  /\ (t <> [] -> last (hdr ++ t) = last t).
Proof.
  induction 1 as [|ev hdr Hev _ (IH1 & IH2 & IH3 & IH4)]; [done|].
  cbn [app]. repeat split.
  - destruct ev; cbn in Hev; try done; apply IH1.
  - destruct ev; cbn in Hev; try done; apply IH2.
  - intros q b [<-|Hq]%elem_of_cons; [by cbn in Hev|]. by apply IH3.
  - intros Ht. rewrite <- IH4 by done. destruct hdr; [by destruct t|done].
Qed.

Lemma upload_artifacts_runs E bucket whitelist blacklist (c : option client) w :
  runs (upload_artifacts E bucket whitelist blacklist c) w (fun r t w' =>
    match remote_contents bucket w with
    | None =>
        r <> Ok tt /\ called t = [] /\ derived t = []
        /\ (forall q b, EExists q b ∉ t)
    | Some contents =>
        let l := to_upload E whitelist blacklist contents (fs w) in
        called t `prefix_of` l
        /\ (r = Ok tt -> called t = l)
        /\ Forall (fun kp => kp.2 ∈ called t) (derived t)
        /\ (forall q, EExists q false ∈ t ->
            r = Raise FileNotFoundError
            /\ last t = Some (EExists q false)
            /\ exists before S after,
                 l = before ++ S :: after /\ called t = before ++ [S])
    end).
Proof.
  eapply runs_eq; [apply upload_artifacts_loop|].
  set (hdr := match c with None => [EClient (clients w)] | Some _ => [] end).
  set (h := match c with None => clients w | Some h => h end).
  assert (Hhdr : Forall is_listing_event (hdr ++ [EListObjects h bucket])).
  { subst hdr. destruct c; repeat constructor. }
  apply runs_bind.
  cut (forall w0, fs w0 = fs w -> s3 w0 = s3 w ->
         runs (let* all_objects := list_objects h bucket in
               let* contents := getitem_Contents all_objects in
               fun w1 =>
                 for_each (to_upload E whitelist blacklist contents (fs w1))
                   (fun prefix =>
                      upload_artifacts_for_prefix E prefix bucket (Some h) None) w1)
              w0
              (fun r t w' =>
                 match remote_contents bucket w with
                 | None =>
                     r <> Ok tt /\ called (hdr ++ t) = [] /\ derived (hdr ++ t) = []
                     /\ (forall q b, EExists q b ∉ hdr ++ t)
                 | Some contents =>
                     let l := to_upload E whitelist blacklist contents (fs w) in
                     called (hdr ++ t) `prefix_of` l
                     /\ (r = Ok tt -> called (hdr ++ t) = l)
                     /\ Forall (fun kp => kp.2 ∈ called (hdr ++ t)) (derived (hdr ++ t))
                     /\ (forall q, EExists q false ∈ hdr ++ t ->
                         r = Raise FileNotFoundError
                         /\ last (hdr ++ t) = Some (EExists q false)
                         /\ exists before S after,
                              l = before ++ S :: after
                              /\ called (hdr ++ t) = before ++ [S])
                 end)).
  { intros Hcut. subst hdr h. destruct c as [h|].
    - apply runs_ret. by apply Hcut.
    - apply runs_boto3_client. by apply Hcut. }
  intros w0 Hfs0 Hs30.
  apply runs_bind, runs_list_objects. intros w1 Hfs1 Hs31 _.
  unfold remote_contents. rewrite Hs30.
  destruct (s3 w !! bucket) as [[|o objs]|] eqn:Hb.
  - apply runs_bind, runs_raise.
    destruct (header_transparent (hdr ++ [EListObjects h bucket]) [] Hhdr)
      as (H1 & H2 & H3 & _).
    rewrite app_nil_r in *. split; [done|]. split; [done|]. split; [done|].
    intros q b Hq%H3. by apply elem_of_nil in Hq.
  - apply runs_bind, runs_ret.
    eapply runs_eq; [reflexivity|]. cbv beta.
    rewrite Hfs1, Hfs0.
    eapply runs_conseq; [apply upload_loop_runs|].
    intros r t w' (Hpre & Hok & Hder & Hmiss). cbv zeta.
    destruct (header_transparent (hdr ++ [EListObjects h bucket]) t Hhdr)
      as (H1 & H2 & H3 & H4).
    rewrite app_nil_l, (app_assoc hdr), H1, H2.
    split; [done|]. split; [done|]. split; [done|].
    intros q Hq%H3. destruct (Hmiss q Hq) as (Hr & Hlast & Hsplit).
    split; [done|]. split; [|done].
    rewrite H4; [done|]. intros ->. by apply elem_of_nil in Hq.
  - destruct (header_transparent (hdr ++ [EListObjects h bucket]) [] Hhdr)
      as (H1 & H2 & H3 & _).
    rewrite app_nil_r in *. split; [done|]. split; [done|]. split; [done|].
    intros q b Hq%H3. by apply elem_of_nil in Hq.
Qed.

(** ** Which sources [upload_artifacts] calls *)

Lemma elem_of_called prefix bucket (c : option client) (t : list event) :
  ECallUploadForPrefix prefix bucket c ∈ t -> prefix ∈ called t.
Proof. intros H. apply list_elem_of_omap. by eexists. Qed.

Lemma elem_of_derived kind prefix (t : list event) :
  EDerive kind prefix ∈ t -> (kind, prefix) ∈ derived t.
Proof. intros H. apply list_elem_of_omap. by eexists. Qed.

Lemma sorted_Permutation (l : list (string * string)) : sorted l ≡ₚ l.
Proof. apply merge_sort_Permutation. Qed.

Lemma tuple_le_total : Total tuple_le.
Proof.
  intros [a1 a2] [b1 b2]. unfold tuple_le. cbn.
  destruct (decide (a1 = b1)) as [->|Hne].
  - rewrite decide_True by done. apply String.le_total.
  - rewrite decide_False by done. apply String.le_total.
Qed.

Lemma tuple_le_trans : Transitive tuple_le.
Proof.
  intros [a1 a2] [b1 b2] [c1 c2]. unfold tuple_le. cbn.
  destruct (decide (a1 = b1)) as [->|Hab], (decide (b1 = c1)) as [->|Hbc].
  - intros H1 H2. by etrans.
  - intros _ H2. exact H2.
  - intros H1 _. by rewrite decide_False.
  - intros H1 H2. destruct (decide (a1 = c1)) as [->|Hac].
    + destruct Hab. by apply (anti_symm String.le).
    + by etrans.
Qed.

Lemma tuple_le_antisymm : AntiSymm (=) tuple_le.
Proof.
  intros [a1 a2] [b1 b2]. unfold tuple_le. cbn.
  destruct (decide (a1 = b1)) as [->|Hab].
  - rewrite decide_True by done. intros H1 H2. f_equal.
    by apply (anti_symm String.le).
  - rewrite decide_False by done. intros H1 H2. destruct Hab.
    by apply (anti_symm String.le).
Qed.

(** [sorted] returns its argument in Python's order of pairs, and it is the
    only list that does: whatever algorithm Python's [sorted] runs, this is
    its result. *)
Lemma sorted_Sorted (l : list (string * string)) : Sorted tuple_le (sorted l).
Proof. apply Sorted_merge_sort, tuple_le_total. Qed.

Lemma sorted_unique (l l' : list (string * string)) :
  Sorted tuple_le l' -> l' ≡ₚ l -> l' = sorted l.
Proof.
  intros Hs Hp.
  apply (@Sorted_unique _ tuple_le tuple_le_trans tuple_le_antisymm);
    [done|apply sorted_Sorted|].
  by rewrite sorted_Permutation.
Qed.

Lemma skipped_false (uploaded : gset string) whitelist blacklist prefix :
  skipped uploaded whitelist blacklist prefix = false
  <-> (prefix ∉ uploaded)
      /\ (forall s, whitelist = Some s -> s <> ∅ -> prefix ∈ s)
      /\ (forall s, blacklist = Some s -> s <> ∅ -> prefix ∉ s).
Proof.
  unfold skipped, truthy_set, member.
  rewrite !orb_false_iff, !andb_false_iff, bool_decide_eq_false.
  split.
  - intros [[Hu Hw] Hb]. split; [done|]. split.
    + intros s -> Hne. destruct Hw as [Hw|Hw].
      * apply negb_false_iff, bool_decide_eq_true in Hw. done.
      * by apply negb_false_iff, bool_decide_eq_true in Hw.
    + intros s -> Hne Hin. destruct Hb as [Hb|Hb].
      * apply negb_false_iff, bool_decide_eq_true in Hb. done.
      * by apply bool_decide_eq_false in Hb.
  - intros (Hu & Hw & Hb). repeat split; [done|..].
    + destruct whitelist as [s|]; [|by left].
      destruct (decide (s = ∅)) as [->|Hne].
      * left. by rewrite bool_decide_true.
      * right. apply negb_false_iff, bool_decide_eq_true. by apply Hw.
    + destruct blacklist as [s|]; [|by left].
      destruct (decide (s = ∅)) as [->|Hne].
      * left. by rewrite bool_decide_true.
      * right. apply bool_decide_eq_false. by apply Hb.
Qed.

Lemma elem_of_to_upload E whitelist blacklist contents f prefix :
  prefix ∈ to_upload E whitelist blacklist contents f
  <-> (exists path, (prefix, path) ∈ iter_cached_obo E f)
      /\ (prefix ∉ uploaded_prefixes_of contents)
      /\ (forall s, whitelist = Some s -> s <> ∅ -> prefix ∈ s)
      /\ (forall s, blacklist = Some s -> s <> ∅ -> prefix ∉ s).
Proof.
  unfold to_upload.
  rewrite list_elem_of_In, filter_In, <- list_elem_of_In, negb_true_iff, skipped_false.
  change (map fst ?l) with (fst <$> l).
  rewrite list_elem_of_fmap.
  split.
  - intros [([p path] & -> & Hin) H]. split; [|done].
    exists path. by rewrite <- sorted_Permutation.
  - intros [[path Hin] H]. split; [|done].
    exists (prefix, path). split; [done|]. by rewrite sorted_Permutation.
Qed.

Lemma elem_of_uploaded_prefixes (contents : list entry) (e : entry) :
  e ∈ contents -> PyStr.first_segment (Key e) ∈ uploaded_prefixes_of contents.
Proof.
  intros He. unfold uploaded_prefixes_of. apply elem_of_list_to_set.
  change (map ?f ?l) with (f <$> l). apply list_elem_of_fmap. by exists e.
Qed.

(** [remote_contents] is what the listing call answers. *)
Lemma list_objects_contents c bucket w r :
  (list_objects c bucket w).1 = Ok r -> Contents r = remote_contents bucket w.
Proof.
  unfold list_objects, bind, emit, remote_contents. cbn.
  destruct (s3 w !! bucket) as [[|o objs]|]; cbn; [| |done]; by intros [= <-].
Qed.

Lemma remote_contents_Some bucket w objs o :
  s3 w !! bucket = Some objs -> o ∈ objs ->
  remote_contents bucket w = Some (map entry_of objs) /\ entry_of o ∈ map entry_of objs.
Proof.
  intros Hb Ho. unfold remote_contents. rewrite Hb.
  split; [by destruct objs; [apply elem_of_nil in Ho|]|].
  change (map ?f ?l) with (f <$> l). by apply list_elem_of_fmap_2.
Qed.

(** C2. When the bucket holds, at the start of [upload_artifacts], an object
    whose key has [S] as its first segment, [upload_artifacts] does not call
    [upload_artifacts_for_prefix] for [S] and derives no artifact of [S]. *)
Theorem upload_all_skips_remote_source
    (E : env) (bucket : string) (whitelist blacklist : option (gset string))
    (c : option client) (w : world) (objs : list s3_object) (o : s3_object)
    (S : string) :
  s3 w !! bucket = Some objs ->
  o ∈ objs ->
  PyStr.first_segment (obj_key o) = S ->
  runs (upload_artifacts E bucket whitelist blacklist c) w (fun r t w' =>
    (forall b h, ECallUploadForPrefix S b h ∉ t)
    /\ (forall kind, EDerive kind S ∉ t)).
Proof.
  intros Hb Ho HS.
  eapply runs_conseq; [apply upload_artifacts_runs|].
  intros r t w'.
  destruct (remote_contents_Some bucket w objs o Hb Ho) as [-> Hin].
  cbv zeta. intros (Hpre & _ & Hder & _).
  assert (Hnot : S ∉ called t).
  { intros HSc. destruct Hpre as [k Hk].
    assert (HSl : S ∈ to_upload E whitelist blacklist (map entry_of objs) (fs w)).
    { rewrite Hk. apply elem_of_app. by left. }
    apply elem_of_to_upload in HSl as (_ & Hskip & _).
    apply Hskip. rewrite <- HS.
    by apply (elem_of_uploaded_prefixes _ (entry_of o)). }
  split.
  - intros b h Hc. by apply elem_of_called in Hc.
  - intros kind Hd%elem_of_derived.
    rewrite Forall_forall in Hder. by apply Hder in Hd.
Qed.

Lemma upload_all_skips_remote_source_witness :
  let run := upload_artifacts Sample.good_env "bkt" None None None Sample.w_go_remote in
  run.1 = Ok tt
  /\ (forall b h, ECallUploadForPrefix "go" b h ∉ log run.2)
  /\ called (log run.2) = ["hp"].
Proof.
  intros run.
  destruct (upload_all_skips_remote_source Sample.good_env "bkt" None None None
              Sample.w_go_remote [mk_object "go/cache/names.tsv" "n"]
              (mk_object "go/cache/names.tsv" "n") "go")
    as (t & Hlog & Hcall & _).
  - vm_compute; reflexivity.
  - apply list_elem_of_here.
  - reflexivity.
  - split; [vm_compute; reflexivity|]. split; [|vm_compute; reflexivity].
    intros b h. specialize (Hcall b h).
    fold run in Hlog. change (log Sample.w_go_remote) with (@nil event) in Hlog.
    rewrite app_nil_l in Hlog. by rewrite Hlog.
Defined.



(** The example of the specification: of the local sources [go] and [hp],
    neither present remotely, the allowlist [{"go"}] lets [go] through and
    the denylist [{"go"}] lets [hp] through. *)
Example allowlist_go :
  called (log (upload_artifacts Sample.good_env "bkt" (Some {["go"]}) None None
                 Sample.w_chebi).2) = ["go"].
Proof. vm_compute. reflexivity. Qed.

Example denylist_go :
  called (log (upload_artifacts Sample.good_env "bkt" None (Some {["go"]}) None
                 Sample.w_chebi).2) = ["hp"].
Proof. vm_compute. reflexivity. Qed.

(** ** Empty lists *)









(** ** A missing artifact stops [upload_artifacts] *)

Lemma new_events_spec {A} (m : M A) w t :
  log (m w).2 = log w ++ t -> new_events m w = t.
Proof. intros H. unfold new_events. by rewrite H, drop_app_length. Qed.

(** Against C3 as it is stated.  The run in which the names of [go] are not
    produced: the call for [go] raises, the run ends there, and the source
    [hp], which is not skipped, is never called. *)
Lemma upload_all_aborts_siblings :
  ~ siblings_still_processed Sample.go_broken_env "bkt" None None None Sample.w_chebi.
Proof.
  unfold siblings_still_processed. intros H.
  assert (Ht : new_events (upload_artifacts Sample.go_broken_env "bkt" None None None)
                 Sample.w_chebi
               = [EClient 0; EListObjects 0 "bkt";
                  ECallUploadForPrefix "go" "bkt" (Some 0); EDerive names "go";
                  EExists "/raw/go/1.0/names.tsv" false]).
  { vm_compute. reflexivity. }
  rewrite Ht in H. clear Ht.
  assert (Hmissing : exists q, EExists q false
            ∈ [EClient 0; EListObjects 0 "bkt";
               ECallUploadForPrefix "go" "bkt" (Some 0); EDerive names "go";
               EExists "/raw/go/1.0/names.tsv" false]).
  { exists "/raw/go/1.0/names.tsv".
    do 4 apply list_elem_of_further. apply list_elem_of_here. }
  specialize (H Hmissing (map entry_of Sample.chebi_objects) "hp" eq_refl).
  assert (Hhp : "hp" ∈ to_upload Sample.go_broken_env None None
                         (map entry_of Sample.chebi_objects) (fs Sample.w_chebi)).
  { vm_compute. apply list_elem_of_further, list_elem_of_here. }
  apply H in Hhp. vm_compute in Hhp.
  apply elem_of_cons in Hhp as [Hhp|Hhp]; [discriminate Hhp|].
  by apply elem_of_nil in Hhp.
Qed.

(** C3, amended. A missing artifact of one source stops the whole of
    [upload_artifacts], as any exception does: when a check finds no file,
    [upload_artifacts] raises [FileNotFoundError], the check is the last
    event of the run, and the sources called are the failing one and those
    before it in sorted order; the sources after it are not called. *)
Theorem upload_all_stops_at_missing_artifact
    (E : env) (bucket : string) (whitelist blacklist : option (gset string))
    (c : option client) (w : world) :
  runs (upload_artifacts E bucket whitelist blacklist c) w (fun r t w' =>
    forall q, EExists q false ∈ t ->
      r = Raise FileNotFoundError
      /\ last t = Some (EExists q false)
      /\ exists contents before S after,
           remote_contents bucket w = Some contents
           /\ to_upload E whitelist blacklist contents (fs w) = before ++ S :: after
           /\ called t = before ++ [S]).
Proof.
  eapply runs_conseq; [apply upload_artifacts_runs|].
  intros r t w' H q Hq.
  destruct (remote_contents bucket w) as [contents|].
  - cbv zeta in H. destruct H as (_ & _ & _ & Hmiss).
    destruct (Hmiss q Hq) as (Hr & Hlast & before & S & after & Hl & Hc).
    split; [done|]. split; [done|]. by exists contents, before, S, after.
  - destruct H as (_ & _ & _ & Hnone). by apply Hnone in Hq.
Qed.

Lemma upload_all_stops_at_missing_artifact_witness :
  let run := upload_artifacts Sample.go_broken_env "bkt" None None None Sample.w_chebi in
  run.1 = Raise FileNotFoundError
  /\ called (log run.2) = ["go"]
  /\ to_upload Sample.go_broken_env None None (map entry_of Sample.chebi_objects)
       (fs Sample.w_chebi) = ["go"; "hp"].
Proof.
  intros run.
  destruct (upload_all_stops_at_missing_artifact Sample.go_broken_env "bkt" None None
              None Sample.w_chebi) as (t & Hlog & H).
  fold run in Hlog, H. change (log Sample.w_chebi) with (@nil event) in Hlog.
  rewrite app_nil_l in Hlog. rewrite <- Hlog in H.
  destruct (H "/raw/go/1.0/names.tsv") as (Hr & _).
  - vm_compute. do 4 apply list_elem_of_further. apply list_elem_of_here.
  - split; [exact Hr|]. split; vm_compute; reflexivity.
Defined.

(** ** [download_artifacts] *)

Lemma download_artifacts_loop E bucket suffix :
  download_artifacts E bucket suffix
  = (let* s3_client := boto3_client in
     let* all_objects := list_objects s3_client bucket in
     let* contents := getitem_Contents all_objects in
     for_each contents (download_body E s3_client bucket suffix)).
Proof. reflexivity. Qed.

(** The branch of line 47 does nothing: the suffix has no effect. *)
Lemma download_body_ignores_suffix E c bucket suffix e w :
  download_body E c bucket suffix e w = download_body E c bucket None e w.
Proof. unfold download_body. by destruct (suffix_mismatch suffix (Key e)). Qed.

Lemma download_artifacts_ignores_suffix E bucket suffix w :
  download_artifacts E bucket suffix w = download_artifacts E bucket None w.
Proof.
  rewrite !download_artifacts_loop. unfold bind.
  destruct (boto3_client w) as [[c|e] w0]; [|done].
  destruct (list_objects c bucket w0) as [[all_objects|e] w1]; [|done].
  destruct (getitem_Contents all_objects w1) as [[contents|e] w2]; [|done].
  apply for_each_ext. intros. apply download_body_ignores_suffix.
Qed.

(** C1. The run of [download_artifacts] with the suffix ["names.tsv"] on a
    bucket that holds [chebi/cache/names.tsv] and [chebi/cache/xrefs.tsv]:
    the key of the second object does not end with the suffix, and yet the
    object is downloaded and its local file is created.  The docstring and
    the specification ask for the object to be skipped. *)
Theorem download_ignores_suffix_filter :
  let run := download_artifacts Sample.good_env "bkt" (Some "names.tsv")
               Sample.w_chebi in
  PyStr.endswith "chebi/cache/xrefs.tsv" "names.tsv" = false
  /\ fs Sample.w_chebi !! "/raw/chebi/cache/xrefs.tsv" = None
  /\ run.1 = Ok tt
  /\ downloads (log run.2)
     = [ ("chebi/cache/names.tsv", "/raw/chebi/cache/names.tsv");
         ("chebi/cache/xrefs.tsv", "/raw/chebi/cache/xrefs.tsv") ]
  /\ fs run.2 !! "/raw/chebi/cache/xrefs.tsv" = Some (File "xx").
Proof. vm_compute. repeat split; reflexivity. Qed.

(** *** The file system under [makedirs] and [download_file] *)

Lemma mkdir_chain_subseteq ds (f f' : gmap string node) r :
  mkdir_chain ds f = (r, f') -> f ⊆ f'.
Proof.
  revert f. induction ds as [|d ds IH]; intros f; cbn.
  - by intros [= _ <-].
  - destruct (f !! d) as [[body|]|] eqn:Hd.
    + by intros [= _ <-].
    + apply IH.
    + intros H%IH. etrans; [|exact H]. by apply insert_subseteq.
Qed.

Lemma mkdir_chain_ok ds (f f' : gmap string node) :
  mkdir_chain ds f = (Ok tt, f') -> Forall (fun d => f' !! d = Some Dir) ds.
Proof.
  revert f. induction ds as [|d ds IH]; intros f; cbn; [constructor|].
  destruct (f !! d) as [[body|]|] eqn:Hd; [done|..]; intros H.
  - constructor; [|by eapply IH].
    eapply lookup_weaken; [exact Hd|by eapply mkdir_chain_subseteq].
  - constructor; [|by eapply IH].
    eapply lookup_weaken; [|by eapply mkdir_chain_subseteq].
    apply lookup_insert_eq.
Qed.

Lemma mkdir_chain_settled ds (f : gmap string node) :
  Forall (fun d => f !! d = Some Dir) ds -> mkdir_chain ds f = (Ok tt, f).
Proof. induction 1 as [|d ds Hd _ IH]; [done|]. cbn. by rewrite Hd. Qed.

Lemma runs_makedirs d w (P : res unit -> list event -> world -> Prop) :
  (forall r f',
     fs w ⊆ f' ->
     (r = Ok tt -> d <> "" /\ Forall (fun a => f' !! a = Some Dir) (PyStr.ancestors d)) ->
     (d <> "" -> Forall (fun a => fs w !! a = Some Dir) (PyStr.ancestors d) ->
      r = Ok tt /\ f' = fs w) ->
     P r [EMakedirs d] (mk_world f' (s3 w) (clients w) (log w ++ [EMakedirs d]))) ->
  runs (makedirs d) w P.
Proof.
  intros HP. unfold runs, makedirs, bind, emit. cbn.
  exists [EMakedirs d].
  destruct (String.eqb_spec d "") as [->|Hne]; cbn.
  - split; [done|]. apply HP; [done|done|done].
  - destruct (mkdir_chain (PyStr.ancestors d) (fs w)) as [r f'] eqn:Hm. cbn.
    split; [done|]. apply HP.
    + by eapply mkdir_chain_subseteq.
    + intros ->. split; [done|]. by eapply mkdir_chain_ok.
    + intros _ Hs. rewrite (mkdir_chain_settled _ _ Hs) in Hm. by injection Hm as <- <-.
Qed.

Lemma runs_download_file c bucket key path w
    (P : res unit -> list event -> world -> Prop) :
  (forall r f',
     (f' = fs w \/ exists body, f' = <[path := File body]> (fs w)) ->
     (r = Ok tt -> exists body, f' = <[path := File body]> (fs w)) ->
     P r [EDownloadFile c bucket key path]
       (mk_world f' (s3 w) (clients w) (log w ++ [EDownloadFile c bucket key path]))) ->
  runs (download_file c bucket key path) w P.
Proof.
  intros HP. unfold runs, download_file, bind, emit. cbn.
  exists [EDownloadFile c bucket key path].
  destruct (s3 w !! bucket) as [objs|]; cbn.
  - destruct (find_object key objs) as [o|]; cbn; (split; [done|]); apply HP;
      try (by left); try done.
    + right. by eexists.
    + intros _. by eexists.
  - split; [done|]. apply HP; [by left|done].
Qed.

Lemma settled_mono E (f f' : gmap string node) e :
  f ⊆ f' -> settled E f e -> settled E f' e.
Proof.
  intros Hsub (Hne & Hdirs & [n Hn]). split; [done|]. split.
  - eapply Forall_impl; [exact Hdirs|]. intros d Hd. cbv beta in *.
    eapply lookup_weaken; [exact Hd|exact Hsub].
  - exists n. eapply lookup_weaken; [exact Hn|exact Hsub].
Qed.

(** One iteration of the loop of [download_artifacts]: the file system only
    grows; at most one download is made, to a destination that did not exist;
    an iteration that returns leaves its object settled, and an iteration on
    a settled object changes nothing: it asks for the directory and finds the
    destination, and that is all. *)
Lemma download_body_runs E c bucket suffix e w :
  runs (download_body E c bucket suffix e) w (fun r t w' =>
    fs w ⊆ fs w'
    /\ s3 w' = s3 w
    /\ (downloads t = []
        \/ downloads t = [(Key e, destination E e)]
           /\ fs w !! destination E e = None
           /\ (r = Ok tt -> is_Some (fs w' !! destination E e)))
    /\ (r = Ok tt -> settled E (fs w') e)
    /\ (settled E (fs w) e -> r = Ok tt /\ fs w' = fs w /\ t = skip_trace E e)).
Proof.
  unfold download_body. fold (destination E e).
  apply runs_bind.
  assert (Hpass : forall (P : res unit -> list event -> world -> Prop),
            P (Ok tt) [] w ->
            runs (if suffix_mismatch suffix (Key e) then ret tt else ret tt) w P).
  { intros P HP. destruct (suffix_mismatch suffix (Key e)); by apply runs_ret. }
  apply Hpass. cbn [app].
  apply runs_bind, runs_makedirs. intros [[]|err] f' Hsub Hok Hset.
  - destruct (Hok eq_refl) as [Hne Hdirs].
    apply runs_bind, runs_path_exists. cbn [fs s3 clients log].
    intros [|] Hfound.
    + apply runs_ret. cbn [fs s3 clients log app].
      symmetry in Hfound. apply bool_decide_eq_true in Hfound.
      split; [done|]. split; [done|]. split; [by left|].
      split; [done|].
      intros (_ & Hd & _). destruct (Hset Hne Hd) as [_ ->]. done.
    + symmetry in Hfound. apply bool_decide_eq_false in Hfound.
      assert (Hnone : f' !! destination E e = None).
      { destruct (f' !! destination E e) eqn:Hl; [|done]. by destruct Hfound. }
      apply runs_download_file. cbn [fs s3 clients log app].
      intros r f'' Hcase Hok2.
      assert (Hsub2 : f' ⊆ f'').
      { destruct Hcase as [->|[body ->]]; [done|]. by apply insert_subseteq. }
      split; [by etrans|]. split; [done|]. split; [|split].
      * right. split; [done|]. split.
        { eapply lookup_weaken_None; [exact Hnone|exact Hsub]. }
        intros Hr. destruct (Hok2 Hr) as [body ->].
        rewrite lookup_insert_eq. by eexists.
      * intros Hr. destruct (Hok2 Hr) as [body ->].
        split; [done|]. split.
        { eapply Forall_impl; [exact Hdirs|]. intros d Hd. cbv beta in *.
          eapply lookup_weaken; [exact Hd|exact Hsub2]. }
        rewrite lookup_insert_eq. by eexists.
      * intros (_ & _ & [n Hn]).
        assert (f' !! destination E e = Some n).
        { eapply lookup_weaken; [exact Hn|exact Hsub]. }
        congruence.
  - cbn [fs s3 clients log app].
    split; [done|]. split; [done|]. split; [by left|]. split; [done|].
    intros (Hne & Hd & _). by destruct (Hset Hne Hd) as [? _].
Qed.

Lemma downloads_app (t1 t2 : list event) :
  downloads (t1 ++ t2) = downloads t1 ++ downloads t2.
Proof. apply omap_app. Qed.

(** The loop of [download_artifacts], from any world. *)
Lemma download_loop_runs E c bucket suffix (l : list entry) w :
  runs (for_each l (download_body E c bucket suffix)) w (fun r t w' =>
    fs w ⊆ fs w'
    /\ s3 w' = s3 w
    /\ (forall key path, (key, path) ∈ downloads t -> fs w !! path = None)
    /\ NoDup (map snd (downloads t))
    /\ (r = Ok tt -> Forall (settled E (fs w')) l)).
Proof.
  apply (runs_for_each l _ w (fun done t w1 =>
           fs w ⊆ fs w1
           /\ s3 w1 = s3 w
           /\ (forall key path, (key, path) ∈ downloads t ->
                 fs w !! path = None /\ is_Some (fs w1 !! path))
           /\ NoDup (map snd (downloads t))
           /\ Forall (settled E (fs w1)) done)).
  - split; [done|]. split; [done|]. split; [|split; constructor].
    intros key path H. by apply elem_of_nil in H.
  - intros done x rest t1 w1 -> (Hsub & Hs3 & Hdl & Hnd & Hset).
    eapply runs_conseq; [apply download_body_runs|].
    intros r t2 w2 (Hsub2 & Hs32 & Hcase & Hok & _).
    assert (Hdl2 : forall key path, (key, path) ∈ downloads (t1 ++ t2) ->
              fs w !! path = None /\ (r = Ok tt -> is_Some (fs w2 !! path))).
    { intros key path. rewrite downloads_app. intros [H|H]%elem_of_app.
      - destruct (Hdl key path H) as [Hn [n Hs]]. split; [done|].
        intros _. exists n. eapply lookup_weaken; [exact Hs|exact Hsub2].
      - destruct Hcase as [Hc|(Hc & Hnone & Hsome)]; rewrite Hc in H.
        + by apply elem_of_nil in H.
        + apply list_elem_of_singleton in H. injection H as -> ->.
          split; [|done]. eapply lookup_weaken_None; [exact Hnone|exact Hsub]. }
    assert (Hnd2 : NoDup (map snd (downloads (t1 ++ t2)))).
    { rewrite downloads_app, map_app.
      destruct Hcase as [Hc|(Hc & Hnone & _)]; rewrite Hc; cbn.
      - by rewrite app_nil_r.
      - apply NoDup_app. split; [done|]. split; [|apply NoDup_singleton].
        intros p Hp Hp2. apply list_elem_of_singleton in Hp2 as ->.
        change (map snd ?l) with (snd <$> l) in Hp.
        apply list_elem_of_fmap in Hp as ([key path] & Heq & Hin). cbn in Heq. subst.
        destruct (Hdl key _ Hin) as [_ [n Hs]].
        assert (Hfalse : Some n = None) by (etrans; [symmetry; exact Hs|exact Hnone]).
        discriminate Hfalse. }
    destruct r as [[]|err].
    + split; [by etrans|]. split; [congruence|]. split; [|split; [done|]].
      * intros key path H. destruct (Hdl2 key path H) as [? Hs]. split; [done|by apply Hs].
      * apply Forall_app. split.
        -- eapply Forall_impl; [exact Hset|]. intros e He. by eapply settled_mono.
        -- constructor; [by apply Hok|constructor].
    + split; [by etrans|]. split; [congruence|]. split; [|split; [done|done]].
      intros key path H. by destruct (Hdl2 key path H).
  - intros t w' (Hsub & Hs3 & Hdl & Hnd & Hset).
    split; [done|]. split; [done|]. split; [|done].
    intros key path H. by destruct (Hdl key path H).
Qed.





(** ** A bucket without objects *)

Lemma list_objects_empty (c : client) (bucket : string) (w : world) :
  s3 w !! bucket = Some [] ->
  list_objects c bucket w =
    (Ok (mk_response None),
     mk_world (fs w) (s3 w) (clients w) (log w ++ [EListObjects c bucket])).
Proof.
  intros Hb. unfold list_objects, bind, emit. cbn. by rewrite Hb.
Qed.

(** C9. When the bucket holds no object, the listing response has no
    ["Contents"] entry and each of [download_artifacts], [upload_artifacts]
    and [list_artifacts] raises [KeyError "Contents"] right after the
    listing call: nothing is downloaded, derived or uploaded and no report
    is returned. *)
Theorem empty_bucket_raises_KeyError
    (E : env) (bucket : string) (suffix : option string)
    (whitelist blacklist : option (gset string)) (w : world) :
  s3 w !! bucket = Some [] ->
  let listed c :=
    mk_world (fs w) (s3 w) (S (clients w))
             (log w ++ [EClient (clients w); EListObjects c bucket]) in
  (forall c, exists r, (list_objects c bucket w).1 = Ok r /\ Contents r = None)
  /\ download_artifacts E bucket suffix w
     = (Raise (KeyError "Contents"), listed (clients w))
  /\ upload_artifacts E bucket whitelist blacklist None w
     = (Raise (KeyError "Contents"), listed (clients w))
  /\ (forall c, upload_artifacts E bucket whitelist blacklist (Some c) w
     = (Raise (KeyError "Contents"),
        mk_world (fs w) (s3 w) (clients w) (log w ++ [EListObjects c bucket])))
  /\ list_artifacts E bucket w
     = (Raise (KeyError "Contents"), listed (clients w)).
Proof.
  intros Hb listed. subst listed.
  assert (Hl : forall c l n,
    list_objects c bucket (mk_world (fs w) (s3 w) n l)
    = (Ok (mk_response None),
       mk_world (fs w) (s3 w) n (l ++ [EListObjects c bucket]))).
  { intros c l n. by rewrite list_objects_empty. }
  split; [intros c; eexists; by rewrite list_objects_empty|].
  repeat split; intros;
    unfold download_artifacts, upload_artifacts, list_artifacts, bind,
      boto3_client, ret; cbn [fst snd];
    try rewrite Hl; try (destruct w; cbn in *; rewrite Hl);
    cbn; rewrite <- ?app_assoc; reflexivity.
Qed.

Lemma empty_bucket_raises_KeyError_witness :
  s3 Sample.w_empty_bucket !! "bkt" = Some []
  /\ (download_artifacts Sample.good_env "bkt" None Sample.w_empty_bucket).1
     = Raise (KeyError "Contents").
Proof.
  split; [reflexivity|].
  pose proof (empty_bucket_raises_KeyError Sample.good_env "bkt" None None None
                Sample.w_empty_bucket eq_refl) as H.
  cbv zeta in H. destruct H as (_ & H & _). rewrite H. reflexivity.
Defined.

(* ===================================================================== *)
(** * Further properties *)
(* ===================================================================== *)

(** ** Two facts about one run hold together *)

Lemma runs_and {A} (m : M A) w (P Q : res A -> list event -> world -> Prop) :
  runs m w P -> runs m w Q -> runs m w (fun r t w' => P r t w' /\ Q r t w').
Proof.
  intros (t & Hlog & HP) (t' & Hlog' & HQ). exists t. split; [done|].
  rewrite Hlog in Hlog'. apply app_inv_head in Hlog'. by subst.
Qed.

(** ** Objects of a bucket *)

Lemma find_object_put (o : s3_object) (objs : list s3_object) (k : string) :
  find_object k (put_object o objs)
  = if String.eqb (obj_key o) k then Some o else find_object k objs.
Proof.
  unfold find_object. induction objs as [|o' objs IH]; cbn.
  - by destruct (String.eqb (obj_key o) k).
  - destruct (String.eqb_spec (obj_key o') (obj_key o)) as [Heq|Hne]; cbn.
    + rewrite Heq. by destruct (String.eqb (obj_key o) k).
    + rewrite IH. destruct (String.eqb (obj_key o) k) eqn:Hk; [|done].
      apply String.eqb_eq in Hk. rewrite <- Hk.
      apply String.eqb_neq in Hne. by rewrite Hne.
Qed.

Lemma put_object_keys (o : s3_object) (objs : list s3_object) :
  map obj_key (put_object o objs)
  = if bool_decide (obj_key o ∈ map obj_key objs) then map obj_key objs
    else map obj_key objs ++ [obj_key o].
Proof.
  induction objs as [|o' objs IH]; cbn; [done|].
  destruct (String.eqb_spec (obj_key o') (obj_key o)) as [Heq|Hne]; cbn.
  - rewrite bool_decide_true; [by rewrite Heq|]. rewrite Heq. apply list_elem_of_here.
  - rewrite IH. destruct (decide (obj_key o ∈ map obj_key objs)) as [Hin|Hout].
    + rewrite !bool_decide_true; [done|by apply list_elem_of_further|done].
    + rewrite !bool_decide_false; [done| |done].
      intros [?|?]%elem_of_cons; congruence.
Qed.

Lemma put_object_NoDup (o : s3_object) (objs : list s3_object) :
  NoDup (map obj_key objs) -> NoDup (map obj_key (put_object o objs)).
Proof.
  intros Hnd. rewrite put_object_keys. case_bool_decide as Hin; [done|].
  apply NoDup_app. split; [done|]. split; [|apply NoDup_singleton].
  intros k Hk ->%list_elem_of_singleton. done.
Qed.

(** What [s3_client.upload_file] does to the world. *)
Lemma runs_s3_upload_file_full c path bucket key w
    (P : res unit -> list event -> world -> Prop) :
  (forall r s',
     match r with
     | Ok _ => exists body objs,
         fs w !! path = Some (File body) /\ s3 w !! bucket = Some objs
         /\ s' = <[bucket := put_object (mk_object key body) objs]> (s3 w)
     | Raise _ => s' = s3 w
     end ->
     P r [EUploadFile c path bucket key]
       (mk_world (fs w) s' (clients w) (log w ++ [EUploadFile c path bucket key]))) ->
  runs (s3_upload_file c path bucket key) w P.
Proof.
  intros HP. unfold runs, s3_upload_file, bind, emit. cbn.
  exists [EUploadFile c path bucket key].
  destruct (fs w !! path) as [[body|]|] eqn:Hp; cbn;
    [destruct (s3 w !! bucket) as [objs|] eqn:Hb; cbn|..];
    (split; [done|]); apply HP; try done.
  by exists body, objs.
Qed.

Lemma runs_upload_file_full path bucket key (c : option client) w
    (P : res unit -> list event -> world -> Prop) :
  (forall r w',
     fs w' = fs w ->
     match r with
     | Ok _ => exists body objs,
         fs w !! path = Some (File body) /\ s3 w !! bucket = Some objs
         /\ s3 w' = <[bucket := put_object (mk_object key body) objs]> (s3 w)
     | Raise _ => s3 w' = s3 w
     end ->
     P r (match c with
          | Some h => [EUploadFile h path bucket key]
          | None => [EClient (clients w); EUploadFile (clients w) path bucket key]
          end) w') ->
  runs (upload_file path bucket key c) w P.
Proof.
  intros HP. unfold upload_file. apply runs_bind. destruct c as [h|].
  - apply runs_ret, runs_s3_upload_file_full. intros r s' H. by apply HP.
  - apply runs_boto3_client, runs_s3_upload_file_full. intros r s' H. by apply HP.
Qed.

Lemma object_at_put (s : gmap string (list s3_object)) bucket objs o k :
  s !! bucket = Some objs ->
  object_at (<[bucket := put_object o objs]> s) bucket k
  = if String.eqb (obj_key o) k then Some o else object_at s bucket k.
Proof.
  intros Hb. unfold object_at. rewrite lookup_insert_eq, Hb. apply find_object_put.
Qed.

(** X1. [upload_file] stores the local file in the bucket.  When it returns,
    the object under [key] has the content of the file at [path], every
    other object of the bucket and every other bucket are as before, and a
    bucket whose keys were distinct still has distinct keys.  When it raises,
    the buckets are untouched.  The local file system is never changed, and a
    client is constructed exactly when none is given. *)
Theorem upload_file_stores
    (path bucket key : string) (c : option client) (w : world) :
  runs (upload_file path bucket key c) w (fun r t w' =>
    fs w' = fs w
    /\ constructed t = match c with Some _ => [] | None => [clients w] end
    /\ match r with
       | Ok _ =>
           exists body objs,
             fs w !! path = Some (File body)
             /\ s3 w !! bucket = Some objs
             /\ object_at (s3 w') bucket key = Some (mk_object key body)
             /\ (forall k, k <> key ->
                   object_at (s3 w') bucket k = object_at (s3 w) bucket k)
             /\ (forall b, b <> bucket -> s3 w' !! b = s3 w !! b)
             /\ (NoDup (map obj_key objs) ->
                 exists objs', s3 w' !! bucket = Some objs'
                               /\ NoDup (map obj_key objs'))
       | Raise _ => s3 w' = s3 w
       end).
Proof.
  apply runs_upload_file_full. intros [[]|e] w' Hfs H.
  - destruct H as (body & objs & Hp & Hb & Hs).
    split; [done|]. split; [by destruct c|].
    exists body, objs. split; [done|]. split; [done|]. rewrite Hs.
    split; [|split; [|split]].
    + rewrite (object_at_put _ _ _ _ _ Hb). cbn. by rewrite String.eqb_refl.
    + intros k Hk. rewrite (object_at_put _ _ _ _ _ Hb). cbn.
      apply not_eq_sym, String.eqb_neq in Hk. by rewrite Hk.
    + intros b Hb'. by rewrite lookup_insert_ne.
    + intros Hnd. eexists. rewrite lookup_insert_eq. split; [done|].
      by apply put_object_NoDup.
  - split; [done|]. split; [by destruct c|done].
Qed.

(** ** The report of [list_artifacts] *)

(** X2. [list_artifacts] only reads: it constructs one client, lists the
    bucket once and changes neither the local file system nor the buckets.
    For a bucket with objects it returns the table, with the headers [File]
    and [Size], of one row per object in the order of the listing: the key
    and the natural size of the length of the object.  For a bucket without
    objects it raises [KeyError], for a missing bucket the error of the
    client. *)
Theorem list_artifacts_reports (E : env) (bucket : string) (w : world) :
  runs (list_artifacts E bucket) w (fun r t w' =>
    fs w' = fs w
    /\ s3 w' = s3 w
    /\ t = [EClient (clients w); EListObjects (clients w) bucket]
    /\ match s3 w !! bucket with
       | Some (o :: objs) =>
           r = Ok (tabulate E
                     (map (fun o => (obj_key o,
                                     naturalsize E (String.length (obj_body o))))
                          (o :: objs))
                     ["File"; "Size"])
       | Some [] => r = Raise (KeyError "Contents")
       | None => r = Raise (ClientError "NoSuchBucket")
       end).
Proof.
  unfold list_artifacts.
  apply runs_bind, runs_boto3_client.
  apply runs_bind, runs_list_objects. cbn [fs s3 clients log].
  intros w1 Hfs Hs3 _.
  destruct (s3 w !! bucket) as [[|o objs]|]; [| |done].
  - apply runs_bind, runs_raise. done.
  - apply runs_bind, runs_ret. apply runs_ret.
    split; [done|]. split; [done|]. split; [done|].
    do 2 f_equal. cbn. f_equal. by rewrite map_map.
Qed.

(** ** A missing bucket *)

(** X3. The error of the listing call is not caught: for a bucket that does
    not exist, [download_artifacts] and [upload_artifacts] raise the error
    of the client right after the listing call, and nothing is created,
    derived, downloaded or uploaded. *)
Theorem missing_bucket_propagates
    (E : env) (bucket : string) (suffix : option string)
    (whitelist blacklist : option (gset string)) (c : option client)
    (w : world) :
  s3 w !! bucket = None ->
  runs (download_artifacts E bucket suffix) w (fun r t w' =>
    r = Raise (ClientError "NoSuchBucket")
    /\ fs w' = fs w /\ s3 w' = s3 w
    /\ t = [EClient (clients w); EListObjects (clients w) bucket])
  /\ runs (upload_artifacts E bucket whitelist blacklist c) w (fun r t w' =>
    r = Raise (ClientError "NoSuchBucket")
    /\ fs w' = fs w /\ s3 w' = s3 w
    /\ t = match c with
           | Some h => [EListObjects h bucket]
           | None => [EClient (clients w); EListObjects (clients w) bucket]
           end).
Proof.
  intros Hb. split.
  - rewrite download_artifacts_loop.
    apply runs_bind, runs_boto3_client.
    apply runs_bind, runs_list_objects. cbn [fs s3 clients log].
    intros w1 Hfs Hs3 _. by rewrite Hb.
  - eapply runs_eq; [apply upload_artifacts_loop|].
    apply runs_bind. destruct c as [h|].
    + apply runs_ret. apply runs_bind, runs_list_objects.
      intros w1 Hfs Hs3 _. by rewrite Hb.
    + apply runs_boto3_client. apply runs_bind, runs_list_objects.
      cbn [fs s3 clients log]. intros w1 Hfs Hs3 _. by rewrite Hb.
Qed.

Lemma missing_bucket_propagates_witness :
  s3 Sample.w_chebi !! "other" = None
  /\ (download_artifacts Sample.good_env "other" None Sample.w_chebi).1
     = Raise (ClientError "NoSuchBucket").
Proof.
  split; [reflexivity|].
  destruct (missing_bucket_propagates Sample.good_env "other" None None None None
              Sample.w_chebi eq_refl) as [(t & _ & Hr & _) _].
  exact Hr.
Defined.

(** ** The clients of a call without a client *)

(** X4. When no client is given to [upload_artifacts_for_prefix], the call
    constructs one client at its start and makes the uploads of names,
    synonyms, xrefs, relations and properties with it; the upload of alts
    constructs a second client.  A call that reaches the upload of alts has
    constructed two clients, any other call one. *)
Theorem upload_one_default_clients
    (E : env) (prefix bucket : string) (v : option string) (w : world) :
  runs (upload_artifacts_for_prefix E prefix bucket None v) w (fun r t w' =>
    let version := match v with None => get_version E prefix | Some v => v end in
    let path kind := get_cache_path E prefix kind version in
    let n := clients w in
    let expected :=
      [ (path names, n); (path synonyms, n); (path xrefs, n);
        (path relations, n); (path properties, n); (path alts, S n) ] in
    map (fun u => (up_path u, up_client u)) (uploads t) `prefix_of` expected
    /\ (r = Ok tt ->
        map (fun u => (up_path u, up_client u)) (uploads t) = expected)
    /\ constructed t
       = (if decide (length (uploads t) = 6) then [n; S n] else [n])).
Proof.
  eapply runs_conseq; [apply upload_artifacts_for_prefix_runs|].
  intros r t w' (t' & -> & Hout). cbv zeta in *.
  set (version := match v with None => get_version E prefix | Some v => v end) in *.
  cbn [app]. change (uploads (?e :: ?e' :: t')) with (uploads t').
  change (constructed (?e :: EClient ?n :: t')) with (n :: constructed t').
  outcome_cases Hout; cbn -[artifact_key];
    (split; [by eexists|]); (split; [done|]); done.
Qed.

(** ** What [upload_artifacts_for_prefix] writes to the bucket *)

Lemma derived_app (t1 t2 : list event) : derived (t1 ++ t2) = derived t1 ++ derived t2.
Proof. apply omap_app. Qed.

Lemma called_app (t1 t2 : list event) : called (t1 ++ t2) = called t1 ++ called t2.
Proof. apply omap_app. Qed.

Lemma bucket_extends_refl bucket keys s : bucket_extends bucket keys s s.
Proof. done. Qed.

Lemma bucket_extends_trans bucket keys s1 s2 s3 :
  bucket_extends bucket keys s1 s2 -> bucket_extends bucket keys s2 s3 ->
  bucket_extends bucket keys s1 s3.
Proof.
  intros (H1 & H2 & H3) (H1' & H2' & H3'). split; [|split].
  - intros b Hb. by rewrite H1', H1.
  - intros k Hk. by rewrite H2', H2.
  - intros k Hk. by apply H3', H3.
Qed.

Lemma bucket_extends_put bucket keys s objs key body :
  key ∈ keys -> s !! bucket = Some objs ->
  bucket_extends bucket keys s (<[bucket := put_object (mk_object key body) objs]> s).
Proof.
  intros Hkey Hb. split; [|split].
  - intros b Hne. by rewrite lookup_insert_ne.
  - intros k Hk. rewrite (object_at_put _ _ _ _ _ Hb). cbn.
    destruct (String.eqb_spec key k) as [<-|]; [done|done].
  - intros k Hk. rewrite (object_at_put _ _ _ _ _ Hb). cbn.
    by destruct (String.eqb key k).
Qed.

Section UploadOneBucketFacts.

Context (E : env) (prefix bucket version : string).
Context (s0 : gmap string (list s3_object)).

Local Abbreviation key := (artifact_key E prefix version).
Local Abbreviation done := (blocks_done E prefix bucket version s0).
Local Abbreviation post := (blocks_post E prefix bucket version s0).

Lemma artifact_key_in_keys m kind :
  all_kinds !! m = Some kind -> key kind ∈ artifact_keys E prefix version.
Proof.
  intros H. unfold artifact_keys. change (map ?f ?l) with (f <$> l).
  apply list_elem_of_fmap_2. by eapply list_elem_of_lookup_2.
Qed.

(** A block that raises leaves the bucket as it found it. *)
Lemma block_raises m e t w' s x :
  done m s -> s3 w' = s -> derived t = [x] -> post m (Raise e) t w'.
Proof.
  intros [Hext Hdone] Hs Ht. rewrite <- Hs in *. split; [done|]. split; [done|].
  intros i kind Hi Hlt. rewrite Ht in Hlt. cbn in Hlt. apply (Hdone i); [lia|done].
Qed.

(** A block that uploads its file moves on by one. *)
Lemma block_uploads m kind s objs body :
  all_kinds !! m = Some kind -> done m s -> s !! bucket = Some objs ->
  done (S m) (<[bucket := put_object (mk_object (key kind) body) objs]> s).
Proof.
  intros Hm [Hext Hdone] Hb.
  pose proof (bucket_extends_put bucket (artifact_keys E prefix version) s objs
                (key kind) body (artifact_key_in_keys m kind Hm) Hb) as Hstep.
  split; [by eapply bucket_extends_trans|].
  intros i kind' Hi Hkind'.
  destruct (decide (i = m)) as [->|Hne].
  - assert (kind' = kind) as -> by congruence.
    rewrite (object_at_put _ _ _ _ _ Hb). cbn. by rewrite String.eqb_refl.
  - destruct Hstep as (_ & _ & Hkeep). apply Hkeep, (Hdone i); [lia|done].
Qed.

Lemma block_bucket m kind (c : option client) (rest : M unit) w :
  all_kinds !! m = Some kind ->
  done m (s3 w) ->
  (forall w1, done (S m) (s3 w1) -> runs rest w1 (post (S m))) ->
  runs (let* _ := derivation E kind prefix in
        let* present := path_exists (artifact_path E prefix version kind) in
        let* _ := (if negb present then raise FileNotFoundError else ret tt) in
        let* _ := upload_file (artifact_path E prefix version kind) bucket
                    (key kind) c in
        rest) w (post m).
Proof.
  intros Hm Hdone Hrest.
  apply runs_bind, runs_derivation. intros [[]|e] f Hd.
  - apply runs_bind, runs_path_exists. intros [|] _; apply runs_bind; cbn.
    + apply runs_ret. apply runs_bind, runs_upload_file_full.
      intros [[]|e] w1 _ H.
      * destruct H as (body & objs & _ & Hb & Hs). cbn in Hb, Hs.
        eapply runs_conseq.
        { apply Hrest. rewrite Hs. by eapply block_uploads. }
        intros r t w' (Hext & Hok & Hlater). split; [done|]. split; [done|].
        intros i kind' Hi Hlt. apply (Hlater i); [done|].
        unfold derived in *. destruct c; cbn in Hlt; lia.
      * cbn in H. eapply block_raises; [done|done|]. by destruct c.
    + apply runs_raise. by eapply block_raises.
  - by eapply block_raises.
Qed.

Lemma block_bucket_last kind (c : option client) w :
  all_kinds !! 5 = Some kind ->
  done 5 (s3 w) ->
  runs (let* _ := derivation E kind prefix in
        let* present := path_exists (artifact_path E prefix version kind) in
        let* _ := (if negb present then raise FileNotFoundError else ret tt) in
        upload_file (artifact_path E prefix version kind) bucket (key kind) c)
       w (post 5).
Proof.
  intros Hm Hdone.
  apply runs_bind, runs_derivation. intros [[]|e] f Hd.
  - apply runs_bind, runs_path_exists. intros [|] _; apply runs_bind; cbn.
    + apply runs_ret. apply runs_upload_file_full.
      intros [[]|e] w1 _ H.
      * destruct H as (body & objs & _ & Hb & Hs). cbn in Hb, Hs.
        assert (Hall : done 6 (s3 w1)).
        { rewrite Hs. by eapply block_uploads. }
        destruct Hall as [Hext Hall]. split; [done|]. split.
        -- intros _ kind'. destruct kind'.
           ++ by apply (Hall 0); [lia|].
           ++ by apply (Hall 1); [lia|].
           ++ by apply (Hall 2); [lia|].
           ++ by apply (Hall 3); [lia|].
           ++ by apply (Hall 4); [lia|].
           ++ by apply (Hall 5); [lia|].
        -- intros i kind' Hi _. apply (Hall i); [|done].
           apply lookup_lt_Some in Hi. cbn in Hi. lia.
      * cbn in H. eapply block_raises; [done|done|]. by destruct c.
    + apply runs_raise. by eapply block_raises.
  - by eapply block_raises.
Qed.

End UploadOneBucketFacts.

(** The six blocks and the bucket. *)
Lemma upload_one_bucket_runs E prefix bucket (c : option client) (v : option string) w :
  runs (upload_artifacts_for_prefix E prefix bucket c v) w
    (blocks_post E prefix bucket
       (match v with None => get_version E prefix | Some v => v end) (s3 w) 0).
Proof.
  unfold upload_artifacts_for_prefix.
  unfold get_id_name_mapping, get_id_synonyms_mapping, get_xrefs_df,
    get_relations_df, get_properties_df, get_id_to_alts.
  set (version := match v with None => get_version E prefix | Some v => v end).
  assert (Hstart : forall w0, s3 w0 = s3 w ->
            blocks_done E prefix bucket version (s3 w) 0 (s3 w0)).
  { intros w0 ->. split; [apply bucket_extends_refl|]. intros i kind Hi. lia. }
  apply runs_bind, runs_emit. apply runs_bind.
  assert (Hblocks : forall (h : client) w0, s3 w0 = s3 w ->
    runs
      (let* _ := derivation E names prefix in
       let* present := path_exists (get_cache_path E prefix names version) in
       let* _ := (if negb present then raise FileNotFoundError else ret tt) in
       let* _ := upload_file (get_cache_path E prefix names version) bucket
                   (PyStr.join prefix
                      ["cache"; PyStr.name (get_cache_path E prefix names version)])
                   (Some h) in
       let* _ := derivation E synonyms prefix in
       let* present := path_exists (get_cache_path E prefix synonyms version) in
       let* _ := (if negb present then raise FileNotFoundError else ret tt) in
       let* _ := upload_file (get_cache_path E prefix synonyms version) bucket
                   (PyStr.join prefix
                      ["cache"; PyStr.name (get_cache_path E prefix synonyms version)])
                   (Some h) in
       let* _ := derivation E xrefs prefix in
       let* present := path_exists (get_cache_path E prefix xrefs version) in
       let* _ := (if negb present then raise FileNotFoundError else ret tt) in
       let* _ := upload_file (get_cache_path E prefix xrefs version) bucket
                   (PyStr.join prefix
                      ["cache"; PyStr.name (get_cache_path E prefix xrefs version)])
                   (Some h) in
       let* _ := derivation E relations prefix in
       let* present := path_exists (get_cache_path E prefix relations version) in
       let* _ := (if negb present then raise FileNotFoundError else ret tt) in
       let* _ := upload_file (get_cache_path E prefix relations version) bucket
                   (PyStr.join prefix
                      ["cache"; PyStr.name (get_cache_path E prefix relations version)])
                   (Some h) in
       let* _ := derivation E properties prefix in
       let* present := path_exists (get_cache_path E prefix properties version) in
       let* _ := (if negb present then raise FileNotFoundError else ret tt) in
       let* _ := upload_file (get_cache_path E prefix properties version) bucket
                   (PyStr.join prefix
                      [PyStr.name (get_cache_path E prefix properties version)])
                   (Some h) in
       let* _ := derivation E alts prefix in
       let* present := path_exists (get_cache_path E prefix alts version) in
       let* _ := (if negb present then raise FileNotFoundError else ret tt) in
       upload_file (get_cache_path E prefix alts version) bucket
         (PyStr.join prefix
            ["cache"; PyStr.name (get_cache_path E prefix alts version)])
         None)
      w0 (blocks_post E prefix bucket version (s3 w) 0)).
  { intros h w0 Hs.
    apply (block_bucket E prefix bucket version (s3 w) 0 names); [done|by apply Hstart|].
    intros w1 H1.
    apply (block_bucket E prefix bucket version (s3 w) 1 synonyms); [done|done|].
    intros w2 H2.
    apply (block_bucket E prefix bucket version (s3 w) 2 xrefs); [done|done|].
    intros w3 H3.
    apply (block_bucket E prefix bucket version (s3 w) 3 relations); [done|done|].
    intros w4 H4.
    apply (block_bucket E prefix bucket version (s3 w) 4 properties); [done|done|].
    intros w5 H5.
    by apply (block_bucket_last E prefix bucket version (s3 w) alts). }
  destruct c as [h|].
  - apply runs_ret. eapply runs_conseq; [by apply Hblocks|].
    intros r t w' H. exact H.
  - apply runs_boto3_client. eapply runs_conseq; [by apply Hblocks|].
    intros r t w' H. exact H.
Qed.

(** X5. [upload_artifacts_for_prefix] writes to the bucket under the keys of
    its six artifacts and nowhere else: the other buckets and the objects
    under other keys are as before, and no object is removed, whether the
    call returns or raises.  When it returns, all six artifacts are in the
    bucket; when it raises, the artifacts of the kinds before the failing
    one are: the call is not undone. *)
Theorem upload_one_writes_its_keys
    (E : env) (prefix bucket : string) (c : option client) (v : option string)
    (w : world) :
  runs (upload_artifacts_for_prefix E prefix bucket c v) w (fun r t w' =>
    let version := match v with None => get_version E prefix | Some v => v end in
    let key := artifact_key E prefix version in
    (forall b, b <> bucket -> s3 w' !! b = s3 w !! b)
    /\ (forall k, k ∉ map key all_kinds ->
          object_at (s3 w') bucket k = object_at (s3 w) bucket k)
    /\ (forall k, is_Some (object_at (s3 w) bucket k) ->
          is_Some (object_at (s3 w') bucket k))
    /\ (r = Ok tt -> forall kind, is_Some (object_at (s3 w') bucket (key kind)))
    /\ (forall i kind, all_kinds !! i = Some kind ->
          i + 1 < length (derived t) ->
          is_Some (object_at (s3 w') bucket (key kind)))).
Proof.
  eapply runs_conseq; [apply upload_one_bucket_runs|].
  intros r t w' ((H1 & H2 & H3) & Hok & Hlater). cbv zeta.
  split; [done|]. split; [done|]. split; [done|]. split; [done|].
  intros i kind Hi Hlt. by apply (Hlater i).
Qed.

(** ** The names of a source in the bucket, and the runs after it *)

Lemma upload_one_derived E prefix bucket (c : option client) (v : option string) w :
  runs (upload_artifacts_for_prefix E prefix bucket c v) w (fun r t w' =>
    derived t `prefix_of` map (fun kind => (kind, prefix)) all_kinds
    /\ (r = Ok tt -> derived t = map (fun kind => (kind, prefix)) all_kinds)).
Proof.
  eapply runs_conseq; [apply upload_artifacts_for_prefix_runs|].
  intros r t w' (t' & -> & Hout). cbv zeta in *.
  rewrite (proj1 (proj2 (upload_one_header prefix bucket c (clients w) t' _ eq_refl))).
  outcome_cases Hout; cbn; (split; [by eexists|done]).
Qed.

(** One call and the names of its source: they are in the bucket when the
    call returns and when it has gone on to a later kind. *)
Lemma upload_one_progress E prefix bucket (c : option client) w :
  runs (upload_artifacts_for_prefix E prefix bucket c None) w (fun r t w' =>
    called t = [prefix]
    /\ Forall (fun kp => kp.2 = prefix) (derived t)
    /\ (forall k, is_Some (object_at (s3 w) bucket k) ->
          is_Some (object_at (s3 w') bucket k))
    /\ ((r = Ok tt \/ exists kind, kind <> names /\ (kind, prefix) ∈ derived t) ->
        is_Some (object_at (s3 w') bucket (names_key E prefix)))).
Proof.
  eapply runs_conseq.
  { apply runs_and; [apply upload_one_bucket_runs|].
    apply runs_and; [apply upload_one_derived|apply upload_one_summary]. }
  intros r t w' (((_ & _ & Hkeep) & Hok & Hlater) & (Hpre & Hall) & Hcalled & Hsrc & _).
  split; [done|]. split; [done|]. split; [done|].
  intros [Hr|(kind & Hkind & Hin)].
  - apply (Hok Hr names).
  - apply (Hlater 0 names eq_refl).
    destruct (derived t) as [|x [|y l]]; cbn.
    + by apply elem_of_nil in Hin.
    + apply list_elem_of_singleton in Hin as <-.
      destruct Hpre as [k Hk]. cbn in Hk. injection Hk as Hk _. by destruct Hkind.
    + lia.
Qed.

Lemma elem_of_derived_inv kind prefix (t : list event) :
  (kind, prefix) ∈ derived t -> EDerive kind prefix ∈ t.
Proof.
  intros (ev & Hev & Heq)%list_elem_of_omap.
  destruct ev; try discriminate Heq. by injection Heq as <- <-.
Qed.

(** The loop of [upload_artifacts] and the names of the sources it calls. *)
Lemma upload_loop_bucket E bucket (h : client) (l : list string) w :
  runs (for_each l (fun prefix =>
          upload_artifacts_for_prefix E prefix bucket (Some h) None)) w
    (fun r t w' =>
       forall p, p ∈ called t ->
         (r = Ok tt \/ exists kind, kind <> names /\ (kind, p) ∈ derived t) ->
         is_Some (object_at (s3 w') bucket (names_key E p))).
Proof.
  apply (runs_for_each l _ w (fun done t w1 =>
           (forall p, p ∈ called t ->
              is_Some (object_at (s3 w1) bucket (names_key E p)))
           /\ Forall (fun kp => kp.2 ∈ called t) (derived t))).
  - split; [|constructor]. intros p Hp. by apply elem_of_nil in Hp.
  - intros done x rest t1 w1 _ (Hdone & Hsrc).
    eapply runs_conseq; [apply upload_one_progress|].
    intros r t2 w2 (Hc2 & Hd2 & Hkeep & Hnames).
    rewrite called_app, derived_app, Hc2.
    destruct r as [[]|e].
    + split.
      * intros p [Hp|Hp]%elem_of_app; [by apply Hkeep, Hdone|].
        apply list_elem_of_singleton in Hp as ->. apply Hnames. by left.
      * apply Forall_app. split.
        -- eapply Forall_impl; [exact Hsrc|]. intros kp ?. apply elem_of_app. by left.
        -- eapply Forall_impl; [exact Hd2|]. intros kp ->. apply elem_of_app. right.
           apply list_elem_of_here.
    + intros p [Hp|Hp]%elem_of_app; [intros _; by apply Hkeep, Hdone|].
      apply list_elem_of_singleton in Hp as ->.
      intros [Hr|(kind & Hkind & [Hin|Hin]%elem_of_app)]; [done| |].
      * rewrite Forall_forall in Hsrc. apply Hsrc in Hin. cbn in Hin.
        by apply Hkeep, Hdone.
      * apply Hnames. right. by exists kind.
  - intros t w' (Hdone & _) p Hp _. by apply Hdone.
Qed.

(** [upload_artifacts] is its listing and then its loop: a fact that holds
    after a failed listing and that the loop establishes holds of the run. *)
Lemma upload_artifacts_lift E bucket whitelist blacklist (c : option client) w
    (P : res unit -> list event -> world -> Prop) :
  (forall e hdr w', Forall is_listing_event hdr -> P (Raise e) hdr w') ->
  (forall contents h hdr w1,
     remote_contents bucket w = Some contents ->
     Forall is_listing_event hdr -> fs w1 = fs w -> s3 w1 = s3 w ->
     runs (for_each (to_upload E whitelist blacklist contents (fs w))
             (fun prefix =>
                upload_artifacts_for_prefix E prefix bucket (Some h) None)) w1
       (fun r t w' => P r (hdr ++ t) w')) ->
  runs (upload_artifacts E bucket whitelist blacklist c) w P.
Proof.
  intros Hfail Hloop.
  eapply runs_eq; [apply upload_artifacts_loop|].
  set (hdr := match c with None => [EClient (clients w)] | Some _ => [] end).
  set (h := match c with None => clients w | Some h => h end).
  assert (Hhdr : Forall is_listing_event (hdr ++ [EListObjects h bucket])).
  { subst hdr. destruct c; repeat constructor. }
  apply runs_bind.
  cut (forall w0, fs w0 = fs w -> s3 w0 = s3 w ->
         runs (let* all_objects := list_objects h bucket in
               let* contents := getitem_Contents all_objects in
               fun w1 =>
                 for_each (to_upload E whitelist blacklist contents (fs w1))
                   (fun prefix =>
                      upload_artifacts_for_prefix E prefix bucket (Some h) None) w1)
              w0 (fun r t w' => P r (hdr ++ t) w')).
  { intros Hcut. subst hdr h. destruct c as [h|].
    - apply runs_ret. by apply Hcut.
    - apply runs_boto3_client. by apply Hcut. }
  intros w0 Hfs0 Hs30.
  apply runs_bind, runs_list_objects. intros w1 Hfs1 Hs31 _.
  rewrite Hs30.
  destruct (s3 w !! bucket) as [[|o objs]|] eqn:Hb.
  - apply runs_bind, runs_raise. rewrite app_nil_r. by apply Hfail.
  - apply runs_bind, runs_ret.
    eapply runs_eq; [reflexivity|]. cbv beta.
    rewrite Hfs1, Hfs0.
    eapply runs_conseq.
    + apply (Hloop (map entry_of (o :: objs)) h (hdr ++ [EListObjects h bucket]) w1);
        [|done|congruence|congruence].
      unfold remote_contents. by rewrite Hb.
    + intros r t w' HP. cbn beta in HP. by rewrite app_nil_l, app_assoc.
  - by apply Hfail.
Qed.

Lemma no_sep_endswith (p : string) :
  PyStr.first_segment p = p -> PyStr.endswith p "/" = false.
Proof.
  induction p as [|c p IH]; [done|].
  cbn [PyStr.first_segment]. destruct (PyStr.is_sep c) eqn:Hc; [done|].
  intros [= Hp]. cbn [PyStr.endswith]. rewrite (IH Hp).
  destruct (String.eqb_spec (String c p) "/") as [[= -> ->]|]; [|done].
  done.
Qed.

Lemma first_segment_app_sep (p rest : string) :
  PyStr.first_segment p = p ->
  PyStr.first_segment (p +:+ String "/" rest) = p.
Proof.
  induction p as [|c p IH]; [done|].
  cbn [PyStr.first_segment]. rewrite app_String. cbn [PyStr.first_segment].
  destruct (PyStr.is_sep c); [done|]. intros [= Hp]. by rewrite (IH Hp).
Qed.

(** The first segment of the key of the names of a source is the source. *)
Lemma first_segment_names_key E (p : string) :
  p <> "" -> PyStr.first_segment p = p ->
  PyStr.first_segment (names_key E p) = p.
Proof.
  intros Hne Hp. unfold names_key.
  rewrite artifact_key_format by auto using no_sep_endswith.
  by apply first_segment_app_sep.
Qed.

Lemma find_object_Some key (objs : list s3_object) o :
  find_object key objs = Some o -> o ∈ objs /\ obj_key o = key.
Proof.
  unfold find_object. intros [Hin Heq]%find_some.
  split; [by apply list_elem_of_In|]. by apply String.eqb_eq.
Qed.

(** A source that has an object in the bucket is not called. *)
Lemma present_not_called E bucket whitelist blacklist (c : option client) w key o p :
  object_at (s3 w) bucket key = Some o ->
  PyStr.first_segment key = p ->
  runs (upload_artifacts E bucket whitelist blacklist c) w (fun r t w' =>
    (p ∉ called t) /\ forall kind, (kind, p) ∉ derived t).
Proof.
  unfold object_at. intros Hobj Hseg.
  destruct (s3 w !! bucket) as [objs|] eqn:Hb; [|done].
  apply find_object_Some in Hobj as [Ho Hkey].
  eapply runs_conseq; [apply upload_artifacts_runs|].
  intros r t w'.
  destruct (remote_contents_Some bucket w objs o Hb Ho) as [-> Hin].
  cbv zeta. intros (Hpre & _ & Hder & _).
  assert (Hnot : p ∉ called t).
  { intros Hc. destruct Hpre as [k Hk].
    assert (Hl : p ∈ to_upload E whitelist blacklist (map entry_of objs) (fs w)).
    { rewrite Hk. apply elem_of_app. by left. }
    apply elem_of_to_upload in Hl as (_ & Hskip & _).
    apply Hskip. rewrite <- Hseg, <- Hkey.
    by apply (elem_of_uploaded_prefixes _ (entry_of o)). }
  split; [done|]. intros kind Hd.
  rewrite Forall_forall in Hder. by apply Hder in Hd.
Qed.

(** X6. What a run of [upload_artifacts] leaves behind for a source, and
    what it means for the runs after it.  Take a source whose identifier is
    not empty and has no separator, and a run that called it and returned, or
    raised after the call had gone on to a kind after names.  Then the names
    of the source are in the bucket at the end of the run.  And a run of
    [upload_artifacts] that is shown this object by its listing call,
    whatever its lists and its client, neither calls
    [upload_artifacts_for_prefix] nor derives anything for the source: the
    artifacts that a call that raised has not uploaded are then not uploaded
    by [upload_artifacts]. *)
Theorem upload_all_names_block_later_runs
    (E : env) (bucket : string) (whitelist blacklist : option (gset string))
    (c : option client) (w : world) :
  runs (upload_artifacts E bucket whitelist blacklist c) w (fun r t w' =>
    forall p, p <> "" -> PyStr.first_segment p = p -> p ∈ called t ->
      (r = Ok tt \/ exists kind, kind <> names /\ (kind, p) ∈ derived t) ->
      is_Some (object_at (s3 w') bucket (names_key E p))
      /\ forall (later : world) whitelist' blacklist' c',
           is_Some (object_at (s3 later) bucket (names_key E p)) ->
           runs (upload_artifacts E bucket whitelist' blacklist' c') later
             (fun r2 t2 w2 =>
                (p ∉ called t2) /\ forall kind, (kind, p) ∉ derived t2)).
Proof.
  cut (runs (upload_artifacts E bucket whitelist blacklist c) w (fun r t w' =>
         forall p, p ∈ called t ->
           (r = Ok tt \/ exists kind, kind <> names /\ (kind, p) ∈ derived t) ->
           is_Some (object_at (s3 w') bucket (names_key E p)))).
  { intros H. eapply runs_conseq; [exact H|].
    intros r t w' Hnames p Hne Hp Hc Hev.
    split; [by apply Hnames|].
    intros later whitelist' blacklist' c' [o Ho].
    eapply present_not_called; [exact Ho|]. by apply first_segment_names_key. }
  apply upload_artifacts_lift.
  - intros e hdr w' Hhdr p Hp.
    destruct (header_transparent hdr [] Hhdr) as (Hc & _).
    rewrite app_nil_r in Hc. rewrite Hc in Hp. by apply elem_of_nil in Hp.
  - intros contents h hdr w1 _ Hhdr _ _.
    eapply runs_conseq; [apply upload_loop_bucket|].
    intros r t w' H p.
    destruct (header_transparent hdr t Hhdr) as (-> & -> & _). apply H.
Qed.

Lemma upload_all_names_block_later_runs_witness :
  let first := upload_artifacts Sample.xrefs_broken_env "bkt" None None None
                 Sample.w_chebi in
  let second := upload_artifacts Sample.xrefs_broken_env "bkt" None None None
                  first.2 in
  first.1 = Raise FileNotFoundError
  /\ called (log first.2) = ["go"]
  /\ map obj_key (default [] (s3 first.2 !! "bkt"))
     = [ "chebi/cache/names.tsv"; "chebi/cache/xrefs.tsv";
         "go/cache/names.tsv"; "go/cache/synonyms.tsv" ]
  /\ ("go" ∉ called (new_events (upload_artifacts Sample.xrefs_broken_env "bkt"
                                   None None None) first.2))
  /\ object_at (s3 second.2) "bkt" "go/cache/xrefs.tsv" = None.
Proof.
  intros first second.
  destruct (upload_all_names_block_later_runs Sample.xrefs_broken_env "bkt"
              None None None Sample.w_chebi) as (t & Hlog & H).
  fold first in Hlog, H. change (log Sample.w_chebi) with (@nil event) in Hlog.
  rewrite app_nil_l in Hlog. rewrite <- Hlog in H.
  destruct (H "go") as [Hthere Hlater].
  - discriminate.
  - reflexivity.
  - vm_compute. apply list_elem_of_here.
  - right. exists synonyms. split; [discriminate|].
    vm_compute. apply list_elem_of_further, list_elem_of_here.
  - destruct (Hlater first.2 None None None Hthere) as (t2 & Hlog2 & Hnot & _).
    split; [vm_compute; reflexivity|]. split; [vm_compute; reflexivity|].
    split; [vm_compute; reflexivity|].
    split; [by rewrite (new_events_spec _ _ _ Hlog2)|].
    vm_compute. reflexivity.
Defined.

(** ** The order of the calls *)

Lemma tuple_le_fst (a b : string * string) : tuple_le a b -> (a.1 ≤ b.1)%string.
Proof.
  unfold tuple_le. destruct (decide (a.1 = b.1)) as [->|]; [|done].
  intros _. reflexivity.
Qed.

Lemma StronglySorted_filter {A} (R : relation A) (f : A -> bool) (l : list A) :
  StronglySorted R l -> StronglySorted R (List.filter f l).
Proof.
  induction 1 as [|x l Hl IH Hx]; cbn; [constructor|].
  destruct (f x); [|done]. constructor; [done|].
  rewrite Forall_forall in *. intros y Hy. apply Hx.
  apply list_elem_of_In, filter_In in Hy as [Hy _]. by apply list_elem_of_In.
Qed.

Lemma to_upload_sorted E whitelist blacklist contents f :
  StronglySorted String.le (to_upload E whitelist blacklist contents f).
Proof.
  unfold to_upload. apply StronglySorted_filter.
  change (map fst ?l) with (fst <$> l).
  apply (StronglySorted_fmap fst tuple_le String.le); [apply tuple_le_fst|].
  apply (@StronglySorted_merge_sort _ tuple_le _ tuple_le_trans tuple_le_total).
Qed.

(** X7. [upload_artifacts] calls [upload_artifacts_for_prefix] in ascending
    order of the source identifiers, whatever the order in which the local
    registry yields them: of two calls, the earlier one is for the smaller
    or the same identifier. *)
Theorem upload_all_in_ascending_order
    (E : env) (bucket : string) (whitelist blacklist : option (gset string))
    (c : option client) (w : world) :
  runs (upload_artifacts E bucket whitelist blacklist c) w (fun r t w' =>
    StronglySorted String.le (called t)
    /\ forall i j p q, i < j -> called t !! i = Some p -> called t !! j = Some q ->
         (p ≤ q)%string).
Proof.
  eapply runs_conseq; [apply upload_artifacts_runs|].
  intros r t w' H.
  assert (Hs : StronglySorted String.le (called t)).
  { destruct (remote_contents bucket w) as [contents|].
    - destruct H as ([k Hk] & _).
      eapply StronglySorted_app_1_l. rewrite <- Hk. apply to_upload_sorted.
    - destruct H as (_ & -> & _). constructor. }
  split; [done|].
  intros i j p q Hij Hi Hj.
  rewrite <- (take_drop_middle _ _ _ Hi) in Hs, Hj.
  apply StronglySorted_app_1_r, StronglySorted_cons in Hs as [Hall _].
  rewrite Forall_forall in Hall. apply Hall.
  rewrite lookup_app_r in Hj by (rewrite length_take; lia).
  assert (Hlen : length (take i (called t)) = i).
  { rewrite length_take. apply lookup_lt_Some in Hi. lia. }
  rewrite Hlen in Hj. destruct (j - i) as [|n] eqn:Hn; [lia|].
  cbn in Hj. by eapply list_elem_of_lookup_2.
Qed.

(** ** What [download_artifacts] adds to the local file system *)

Lemma mkdir_chain_new ds (f f' : gmap string node) r :
  mkdir_chain ds f = (r, f') ->
  forall p n, f' !! p = Some n -> f !! p = Some n \/ n = Dir.
Proof.
  revert f. induction ds as [|d ds IH]; intros f; cbn.
  - intros [= _ <-] p n Hp. by left.
  - destruct (f !! d) as [[body|]|] eqn:Hd.
    + intros [= _ <-] p n Hp. by left.
    + apply IH.
    + intros H p n Hp. destruct (IH _ H p n Hp) as [Hin|Hdir]; [|by right].
      destruct (decide (d = p)) as [->|Hne].
      * rewrite lookup_insert_eq in Hin. right. congruence.
      * rewrite lookup_insert_ne in Hin by done. by left.
Qed.

Lemma runs_makedirs_full d w (P : res unit -> list event -> world -> Prop) :
  (forall r f',
     (d = "" /\ r = Raise FileNotFoundError /\ f' = fs w)
     \/ (d <> "" /\ mkdir_chain (PyStr.ancestors d) (fs w) = (r, f')) ->
     P r [EMakedirs d] (mk_world f' (s3 w) (clients w) (log w ++ [EMakedirs d]))) ->
  runs (makedirs d) w P.
Proof.
  intros HP. unfold runs, makedirs, bind, emit. cbn.
  exists [EMakedirs d].
  destruct (String.eqb_spec d "") as [->|Hne]; cbn.
  - split; [done|]. apply HP. by left.
  - destruct (mkdir_chain (PyStr.ancestors d) (fs w)) as [r f'] eqn:Hm. cbn.
    split; [done|]. apply HP. by right.
Qed.

Lemma runs_download_file_full c bucket key path w
    (P : res unit -> list event -> world -> Prop) :
  (forall r f',
     match r with
     | Ok _ => exists o, object_at (s3 w) bucket key = Some o
                         /\ f' = <[path := File (obj_body o)]> (fs w)
     | Raise _ => f' = fs w
     end ->
     P r [EDownloadFile c bucket key path]
       (mk_world f' (s3 w) (clients w) (log w ++ [EDownloadFile c bucket key path]))) ->
  runs (download_file c bucket key path) w P.
Proof.
  intros HP. unfold runs, download_file, bind, emit, object_at in *. cbn.
  exists [EDownloadFile c bucket key path].
  specialize (fun r f' => HP r f').
  destruct (s3 w !! bucket) as [objs|]; cbn.
  - destruct (find_object key objs) as [o|] eqn:Ho; cbn; (split; [done|]);
      apply HP; [by exists o|done].
  - split; [done|]. by apply HP.
Qed.

(** What one iteration of the loop adds: directories, and the file of its
    object with the content of the object. *)
Lemma download_body_adds E c bucket suffix e w :
  runs (download_body E c bucket suffix e) w (fun r t w' =>
    constructed t = []
    /\ (forall p n, fs w' !! p = Some n ->
          fs w !! p = Some n \/ n = Dir
          \/ exists o, object_at (s3 w) bucket (Key e) = Some o
                       /\ p = destination E e /\ n = File (obj_body o)
                       /\ (Key e, p) ∈ downloads t)
    /\ (forall key path, (key, path) ∈ downloads t ->
          key = Key e /\ path = destination E e
          /\ PyStr.dirname path <> ""
          /\ Forall (fun d => fs w' !! d = Some Dir)
                    (PyStr.ancestors (PyStr.dirname path))
          /\ (r = Ok tt ->
              exists o, object_at (s3 w) bucket key = Some o
                        /\ fs w' !! path = Some (File (obj_body o))))).
Proof.
  unfold download_body. fold (destination E e).
  apply runs_bind.
  assert (Hpass : forall (P : res unit -> list event -> world -> Prop),
            P (Ok tt) [] w ->
            runs (if suffix_mismatch suffix (Key e) then ret tt else ret tt) w P).
  { intros P HP. destruct (suffix_mismatch suffix (Key e)); by apply runs_ret. }
  apply Hpass. cbn [app].
  assert (Hnone : forall (f' : gmap string node),
            (forall p n, f' !! p = Some n -> fs w !! p = Some n \/ n = Dir) ->
            forall t, downloads t = [] -> constructed t = [] ->
            forall r,
            constructed t = []
            /\ (forall p n, f' !! p = Some n ->
                  fs w !! p = Some n \/ n = Dir
                  \/ exists o, object_at (s3 w) bucket (Key e) = Some o
                               /\ p = destination E e /\ n = File (obj_body o)
                               /\ (Key e, p) ∈ downloads t)
            /\ (forall key path, (key, path) ∈ downloads t ->
                  key = Key e /\ path = destination E e
                  /\ PyStr.dirname path <> ""
                  /\ Forall (fun d => f' !! d = Some Dir)
                            (PyStr.ancestors (PyStr.dirname path))
                  /\ (r = Ok tt ->
                      exists o, object_at (s3 w) bucket key = Some o
                                /\ f' !! path = Some (File (obj_body o))))).
  { intros f' Hf t Ht Hc r. split; [done|]. split.
    - intros p n Hp. destruct (Hf p n Hp) as [?|?]; [by left|by right; left].
    - intros key path Hin. rewrite Ht in Hin. by apply elem_of_nil in Hin. }
  apply runs_bind, runs_makedirs_full. intros r f' Hmk.
  assert (Hf : forall p n, f' !! p = Some n -> fs w !! p = Some n \/ n = Dir).
  { destruct Hmk as [(_ & _ & ->)|(_ & Hm)]; [by left|].
    by eapply mkdir_chain_new. }
  destruct r as [[]|err]; [|by apply Hnone].
  destruct Hmk as [(_ & [=] & _)|(Hne & Hm)].
  pose proof (mkdir_chain_ok _ _ _ Hm) as Hdirs.
  apply runs_bind, runs_path_exists. cbn [fs s3 clients log].
  intros [|] Hfound.
  - apply runs_ret. cbn [fs s3 clients log app]. by apply Hnone.
  - symmetry in Hfound. apply bool_decide_eq_false in Hfound.
    assert (Hfree : f' !! destination E e = None).
    { destruct (f' !! destination E e) eqn:Hl; [|done]. by destruct Hfound. }
    apply runs_download_file_full. cbn [fs s3 clients log app].
    intros [[]|err] f'' H.
    + destruct H as (o & Ho & ->). split; [done|]. split.
      * intros p n Hp. destruct (decide (destination E e = p)) as [<-|Hp'].
        -- rewrite lookup_insert_eq in Hp. injection Hp as <-.
           right; right. exists o. split; [done|]. split; [done|]. split; [done|].
           cbn. apply list_elem_of_here.
        -- rewrite lookup_insert_ne in Hp by done.
           destruct (Hf p n Hp) as [?|?]; [by left|by right; left].
      * intros key path Hin. cbn in Hin.
        apply list_elem_of_singleton in Hin. injection Hin as -> ->.
        split; [done|]. split; [done|]. split; [done|]. split.
        -- eapply Forall_impl; [exact Hdirs|]. intros d Hd. cbv beta in *.
           rewrite lookup_insert_ne; [done|]. intros <-. congruence.
        -- intros _. exists o. split; [done|]. apply lookup_insert_eq.
    + subst f''. split; [done|]. split.
      * intros p n Hp. destruct (Hf p n Hp) as [?|?]; [by left|by right; left].
      * intros key path Hin. cbn in Hin.
        apply list_elem_of_singleton in Hin. injection Hin as -> ->.
        split; [done|]. split; [done|]. split; [done|]. split; [done|]. done.
Qed.

Lemma constructed_app (t1 t2 : list event) :
  constructed (t1 ++ t2) = constructed t1 ++ constructed t2.
Proof. apply omap_app. Qed.

(** The loop of [download_artifacts]: what it adds, where it downloads to,
    and with what content. *)
Lemma download_loop_adds E c bucket suffix (l : list entry) w :
  runs (for_each l (download_body E c bucket suffix)) w (fun r t w' =>
    constructed t = []
    /\ (forall p n, fs w' !! p = Some n ->
          fs w !! p = Some n \/ n = Dir
          \/ exists key o, (key, p) ∈ downloads t
                           /\ object_at (s3 w) bucket key = Some o
                           /\ n = File (obj_body o))
    /\ (forall key path, (key, path) ∈ downloads t ->
          (exists e, e ∈ l /\ key = Key e /\ path = destination E e)
          /\ PyStr.dirname path <> ""
          /\ Forall (fun d => fs w' !! d = Some Dir)
                    (PyStr.ancestors (PyStr.dirname path)))
    /\ (r = Ok tt -> forall key path, (key, path) ∈ downloads t ->
          exists o, object_at (s3 w) bucket key = Some o
                    /\ fs w' !! path = Some (File (obj_body o)))).
Proof.
  apply (runs_for_each l _ w (fun done t w1 =>
    s3 w1 = s3 w
    /\ constructed t = []
    /\ (forall p n, fs w1 !! p = Some n ->
          fs w !! p = Some n \/ n = Dir
          \/ exists key o, (key, p) ∈ downloads t
                           /\ object_at (s3 w) bucket key = Some o
                           /\ n = File (obj_body o))
    /\ (forall key path, (key, path) ∈ downloads t ->
          (exists e, e ∈ done /\ key = Key e /\ path = destination E e)
          /\ PyStr.dirname path <> ""
          /\ Forall (fun d => fs w1 !! d = Some Dir)
                    (PyStr.ancestors (PyStr.dirname path)))
    /\ (forall key path, (key, path) ∈ downloads t ->
          exists o, object_at (s3 w) bucket key = Some o
                    /\ fs w1 !! path = Some (File (obj_body o))))).
  - split; [done|]. split; [done|]. split; [by left|].
    split; intros key path H; by apply elem_of_nil in H.
  - intros done x rest t1 w1 Hl (Hs3 & Hcon & Hnew & Hdl & Hcont).
    eapply runs_conseq.
    { apply runs_and; [apply download_body_runs|apply download_body_adds]. }
    intros r t2 w2 ((Hsub & Hs32 & _) & Hcon2 & Hnew2 & Hdl2).
    rewrite Hs3 in Hnew2, Hdl2.
    assert (HA : forall p n, fs w2 !! p = Some n ->
              fs w !! p = Some n \/ n = Dir
              \/ exists key o, (key, p) ∈ downloads (t1 ++ t2)
                               /\ object_at (s3 w) bucket key = Some o
                               /\ n = File (obj_body o)).
    { intros p n Hp. rewrite downloads_app.
      destruct (Hnew2 p n Hp) as [Hold|[Hdir|(o & Ho & -> & -> & Hin)]].
      - destruct (Hnew p n Hold) as [?|[?|(key & o & Hin & Ho & Hn)]];
          [by left|by right; left|].
        right; right. exists key, o. split; [|done]. apply elem_of_app. by left.
      - by right; left.
      - right; right. exists (Key x), o. split; [|done]. apply elem_of_app. by right. }
    assert (HB : forall key path, (key, path) ∈ downloads (t1 ++ t2) ->
              (exists e, e ∈ done ++ [x] /\ key = Key e /\ path = destination E e)
              /\ PyStr.dirname path <> ""
              /\ Forall (fun d => fs w2 !! d = Some Dir)
                        (PyStr.ancestors (PyStr.dirname path))).
    { intros key path. rewrite downloads_app. intros [Hin|Hin]%elem_of_app.
      - destruct (Hdl key path Hin) as ((e & He & Hk & Hp) & Hne & Hdirs).
        split; [exists e; split; [apply elem_of_app; by left|done]|].
        split; [done|].
        eapply Forall_impl; [exact Hdirs|]. intros d Hd. cbv beta in *.
        eapply lookup_weaken; [exact Hd|exact Hsub].
      - destruct (Hdl2 key path Hin) as (-> & -> & Hne & Hdirs & _).
        split; [|done]. exists x. split; [|done].
        apply elem_of_app. right. apply list_elem_of_here. }
    assert (HC : r = Ok tt -> forall key path, (key, path) ∈ downloads (t1 ++ t2) ->
              exists o, object_at (s3 w) bucket key = Some o
                        /\ fs w2 !! path = Some (File (obj_body o))).
    { intros Hr key path. rewrite downloads_app. intros [Hin|Hin]%elem_of_app.
      - destruct (Hcont key path Hin) as (o & Ho & Hf). exists o. split; [done|].
        eapply lookup_weaken; [exact Hf|exact Hsub].
      - destruct (Hdl2 key path Hin) as (_ & _ & _ & _ & Hok). by apply Hok. }
    assert (HD : constructed (t1 ++ t2) = []).
    { by rewrite constructed_app, Hcon, Hcon2. }
    destruct r as [[]|err].
    + split; [congruence|]. split; [done|]. split; [done|]. split; [done|].
      by apply HC.
    + split; [done|]. split; [done|]. split; [|done].
      intros key path Hin. destruct (HB key path Hin) as ((e & He & Hk) & Hrest).
      split; [|done]. exists e. split; [|done].
      rewrite Hl. apply elem_of_app in He as [He|He]; apply elem_of_app; [by left|].
      right. apply list_elem_of_singleton in He as ->. apply list_elem_of_here.
  - intros t w' (Hs3 & Hcon & Hnew & Hdl & Hcont).
    split; [done|]. split; [done|]. split; [done|]. intros _. done.
Qed.

Lemma ancestors_from_last (acc s : string) :
  acc +:+ s <> "" -> acc +:+ s ∈ PyStr.ancestors_from acc s.
Proof.
  revert acc. induction s as [|ch s IH]; intros acc Hne; cbn [PyStr.ancestors_from].
  - assert (Hacc : acc +:+ "" = acc).
    { clear. induction acc as [|a acc IH]; [done|]. by rewrite app_String, IH. }
    rewrite Hacc in *. apply String.eqb_neq in Hne. rewrite Hne.
    apply list_elem_of_here.
  - apply elem_of_app. right.
    replace (acc +:+ String ch s) with ((acc +:+ String ch "") +:+ s)
      by (by rewrite app_assoc_string).
    apply IH. rewrite app_assoc_string. cbn.
    intros [_ H]%app_empty_inv. discriminate H.
Qed.

Lemma ancestors_self (d : string) : d <> "" -> d ∈ PyStr.ancestors d.
Proof. intros Hne. by apply (ancestors_from_last "" d). Qed.

(** The whole of [download_artifacts]: the facts of its loop, for the
    objects of the listing. *)
Lemma download_artifacts_adds E bucket suffix w :
  runs (download_artifacts E bucket suffix) w (fun r t w' =>
    fs w ⊆ fs w'
    /\ s3 w' = s3 w
    /\ constructed t = [clients w]
    /\ (forall p n, fs w' !! p = Some n ->
          fs w !! p = Some n \/ n = Dir
          \/ exists key o, (key, p) ∈ downloads t
                           /\ object_at (s3 w) bucket key = Some o
                           /\ n = File (obj_body o))
    /\ (forall key path, (key, path) ∈ downloads t ->
          (exists contents e,
             remote_contents bucket w = Some contents
             /\ e ∈ contents /\ key = Key e /\ path = destination E e)
          /\ PyStr.dirname path <> ""
          /\ Forall (fun d => fs w' !! d = Some Dir)
                    (PyStr.ancestors (PyStr.dirname path)))
    /\ (r = Ok tt ->
        (forall key path, (key, path) ∈ downloads t ->
           exists o, object_at (s3 w) bucket key = Some o
                     /\ fs w' !! path = Some (File (obj_body o)))
        /\ exists contents,
             remote_contents bucket w = Some contents
             /\ Forall (settled E (fs w')) contents)).
Proof.
  rewrite download_artifacts_loop.
  apply runs_bind, runs_boto3_client.
  apply runs_bind, runs_list_objects. cbn [fs s3 clients log].
  intros w1 Hfs Hs3 _.
  assert (Hfail : forall e,
    fs w ⊆ fs w1 /\ s3 w1 = s3 w
    /\ constructed [EClient (clients w); EListObjects (clients w) bucket] = [clients w]
    /\ (forall p n, fs w1 !! p = Some n ->
          fs w !! p = Some n \/ n = Dir
          \/ exists key o,
               (key, p) ∈ downloads [EClient (clients w); EListObjects (clients w) bucket]
               /\ object_at (s3 w) bucket key = Some o /\ n = File (obj_body o))
    /\ (forall key path,
          (key, path) ∈ downloads [EClient (clients w); EListObjects (clients w) bucket] ->
          (exists contents e0,
             remote_contents bucket w = Some contents
             /\ e0 ∈ contents /\ key = Key e0 /\ path = destination E e0)
          /\ PyStr.dirname path <> ""
          /\ Forall (fun d => fs w1 !! d = Some Dir)
                    (PyStr.ancestors (PyStr.dirname path)))
    /\ (Raise e = Ok tt ->
        (forall key path,
           (key, path) ∈ downloads [EClient (clients w); EListObjects (clients w) bucket] ->
           exists o, object_at (s3 w) bucket key = Some o
                     /\ fs w1 !! path = Some (File (obj_body o)))
        /\ exists contents,
             remote_contents bucket w = Some contents
             /\ Forall (settled E (fs w1)) contents)).
  { intros e. rewrite Hfs. split; [done|]. split; [done|]. split; [done|].
    split; [by left|]. split; [|done].
    intros key path H. by apply elem_of_nil in H. }
  destruct (s3 w !! bucket) as [[|o objs]|] eqn:Hb.
  - apply runs_bind, runs_raise. cbn [app]. apply Hfail.
  - apply runs_bind, runs_ret.
    assert (Hc : remote_contents bucket w = Some (map entry_of (o :: objs))).
    { unfold remote_contents. by rewrite Hb. }
    eapply runs_conseq.
    { apply runs_and; [apply download_loop_runs|apply download_loop_adds]. }
    intros r t w' ((Hsub & Hs3' & _ & _ & Hset) & Hcon & Hnew & Hdl & Hcont).
    cbn [app]. change (downloads (?a :: ?b :: t)) with (downloads t).
    change (constructed (EClient ?n :: ?b :: t)) with (n :: constructed t).
    rewrite Hfs, Hs3 in *.
    split; [done|]. split; [done|]. split; [by rewrite Hcon|].
    split; [done|]. split.
    + intros key path Hin. destruct (Hdl key path Hin) as ((e & He & Hk) & Hrest).
      split; [|done]. by exists (map entry_of (o :: objs)), e.
    + intros Hr. split; [by apply Hcont|].
      exists (map entry_of (o :: objs)). split; [done|]. by apply Hset.
  - cbn [app]. apply Hfail.
Qed.

(** ** Two runs of [download_artifacts] *)




(** X8 ([download_artifacts], lines 43-54).  A call of [download_artifacts]
    leaves the bucket as it is and keeps every local entry with its content.
    Every entry it adds locally is a directory, or a file that holds the
    body of an object of the bucket, downloaded to that path.  Every
    download is of a listed key, to [os.path.join(RAW_DIRECTORY, key)], below
    directories that are there at the end; and when the call returns, the
    file of every download holds the body of its object. *)
Theorem download_copies_objects (E : env) (bucket : string)
    (suffix : option string) (w : world) :
  runs (download_artifacts E bucket suffix) w (fun r t w' =>
    s3 w' = s3 w
    /\ fs w ⊆ fs w'
    /\ (forall p n, fs w' !! p = Some n ->
          fs w !! p = Some n \/ n = Dir
          \/ exists key o, (key, p) ∈ downloads t
                           /\ object_at (s3 w) bucket key = Some o
                           /\ n = File (obj_body o))
    /\ (forall key path, (key, path) ∈ downloads t ->
          (exists contents e,
             remote_contents bucket w = Some contents
             /\ e ∈ contents /\ key = Key e)
          /\ path = PyStr.join (RAW_DIRECTORY E) [key]
          /\ fs w' !! PyStr.dirname path = Some Dir)
    /\ (r = Ok tt -> forall key path, (key, path) ∈ downloads t ->
          exists o, object_at (s3 w) bucket key = Some o
                    /\ fs w' !! path = Some (File (obj_body o)))).
Proof.
  eapply runs_conseq; [apply download_artifacts_adds|].
  intros r t w' (Hsub & Hs3 & _ & Hnew & Hdl & Hok).
  split; [done|]. split; [done|]. split; [done|]. split.
  - intros key path Hin.
    destruct (Hdl key path Hin) as ((contents & e & Hc & He & -> & ->) & Hne & Hdirs).
    split; [by exists contents, e|]. split; [done|].
    rewrite Forall_forall in Hdirs. by apply Hdirs, ancestors_self.
  - intros Hr. by apply Hok.
Qed.

(** X9 ([download_artifacts], lines 49-52).  When the bucket lists two
    objects and the destination of the first is the directory of the
    destination of the second (keys such as [a] and [a/b]), a call that
    returns has not downloaded the first: its path is a directory. *)
Theorem download_nested_keys (E : env) (bucket : string)
    (suffix : option string) (w : world) (contents : list entry) (e1 e2 : entry)
    (Hc : remote_contents bucket w = Some contents)
    (H1 : e1 ∈ contents) (H2 : e2 ∈ contents)
    (Hnest : PyStr.dirname (destination E e2) = destination E e1) :
  runs (download_artifacts E bucket suffix) w (fun r t w' =>
    r = Ok tt ->
    fs w' !! destination E e1 = Some Dir
    /\ forall path, (Key e1, path) ∉ downloads t).
Proof.
  eapply runs_conseq; [apply download_artifacts_adds|].
  intros r t w' (_ & _ & _ & _ & Hdl & Hok) Hr.
  destruct (Hok Hr) as (Hcont & contents' & Hc' & Hset).
  assert (contents' = contents) as -> by congruence.
  rewrite Forall_forall in Hset.
  destruct (Hset e2 H2) as (Hne & Hdirs & _).
  rewrite Forall_forall in Hdirs.
  assert (Hdir : fs w' !! destination E e1 = Some Dir).
  { rewrite <- Hnest. by apply Hdirs, ancestors_self. }
  split; [done|]. intros path Hin.
  destruct (Hdl _ _ Hin) as ((_ & e0 & _ & _ & Hk & ->) & _).
  destruct (Hcont _ _ Hin) as (o & _ & Hf).
  unfold destination in *. rewrite <- Hk in Hf. congruence.
Qed.

(** X10 ([download_artifacts], lines 49-50).  When a regular file sits
    locally where the directory of a listed object has to be, the call
    raises. *)
Theorem download_blocked_by_file (E : env) (bucket : string)
    (suffix : option string) (w : world) (contents : list entry) (e : entry)
    (body : string)
    (Hc : remote_contents bucket w = Some contents)
    (He : e ∈ contents)
    (Hfile : fs w !! PyStr.dirname (destination E e) = Some (File body)) :
  runs (download_artifacts E bucket suffix) w (fun r t w' =>
    exists err, r = Raise err).
Proof.
  eapply runs_conseq; [apply download_artifacts_adds|].
  intros r t w' (Hsub & _ & _ & _ & _ & Hok).
  destruct r as [[]|err]; [|by exists err].
  destruct (Hok eq_refl) as (_ & contents' & Hc' & Hset).
  assert (contents' = contents) as -> by congruence.
  rewrite Forall_forall in Hset.
  destruct (Hset e He) as (Hne & Hdirs & _).
  rewrite Forall_forall in Hdirs.
  pose proof (Hdirs _ (ancestors_self _ Hne)) as Hdir.
  pose proof (lookup_weaken _ _ _ _ Hfile Hsub) as Hf. congruence.
Qed.

Lemma download_nested_keys_witness :
  let run := download_artifacts Sample.good_env "bkt" None Sample.w_nested in
  run.1 = Ok tt
  /\ fs run.2 !! "/raw/a" = Some Dir
  /\ fs run.2 !! "/raw/a/b" = Some (File "y")
  /\ downloads (log run.2) = [("a/b", "/raw/a/b")].
Proof.
  intros run.
  destruct (download_nested_keys Sample.good_env "bkt" None Sample.w_nested
              [mk_entry "a" 1; mk_entry "a/b" 1] (mk_entry "a" 1) (mk_entry "a/b" 1))
    as (t & Hlog & H).
  - reflexivity.
  - apply list_elem_of_here.
  - apply list_elem_of_further, list_elem_of_here.
  - vm_compute. reflexivity.
  - fold run in Hlog, H.
    assert (Hr : run.1 = Ok tt) by (vm_compute; reflexivity).
    destruct (H Hr) as [Hdir _].
    split; [exact Hr|]. split; [exact Hdir|].
    split; vm_compute; reflexivity.
Defined.

Lemma download_blocked_by_file_witness :
  let w := {| fs := {[ "/raw/a" := File "stray" ]};
              s3 := {[ "bkt" := [ mk_object "a/b" "y" ] ]};
              clients := 0; log := [] |} in
  let run := download_artifacts Sample.good_env "bkt" None w in
  fs w !! "/raw/a" = Some (File "stray")
  /\ run.1 = Raise FileExistsError
  /\ downloads (log run.2) = [].
Proof.
  intros w run.
  destruct (download_blocked_by_file Sample.good_env "bkt" None w
              [mk_entry "a/b" 1] (mk_entry "a/b" 1) "stray")
    as (t & _ & err & Herr).
  - reflexivity.
  - apply list_elem_of_here.
  - vm_compute. reflexivity.
  - split; [vm_compute; reflexivity|].
    split; [|vm_compute; reflexivity].
    fold run in Herr. rewrite Herr. f_equal.
    assert (Hrun : run.1 = Raise FileExistsError) by (vm_compute; reflexivity).
    congruence.
Defined.

(* ===================================================================== *)
(** * pyobo.mappings.extract_names *)
(* ===================================================================== *)

Module ExtractNamesFacts.
Import ExtractNames.

(** ** Slices *)

Lemma slice_from_app (p s : string) : slice_from (String.length p) (p +:+ s) = s.
Proof. induction p as [|a p IH]; [done|]. exact IH. Qed.

Lemma length_app_colon (p : string) :
  String.length (p +:+ ":") = S (String.length p).
Proof.
  induction p as [|a p IH]; [done|].
  change (S (String.length (p +:+ ":")) = S (S (String.length p))).
  by rewrite IH.
Qed.

Lemma slice_curie (prefix ns i : string) :
  String.length ns = String.length prefix ->
  slice_from (String.length (prefix +:+ ":")) (ns +:+ ":" +:+ i) = i.
Proof.
  intros Hlen. rewrite length_app_colon, <- Hlen, <- length_app_colon.
  rewrite <- (slice_from_app (ns +:+ ":") i) at 2.
  by rewrite app_assoc_string.
Qed.

(** ** Dicts *)

Lemma dict_get_set (k k' v : string) (d : dict) :
  dict_get k (dict_set k' v d)
  = if String.eqb k' k then Some v else dict_get k d.
Proof.
  induction d as [|[k0 v0] d IH]; cbn.
  - by destruct (String.eqb k' k).
  - destruct (String.eqb k0 k') eqn:H0; cbn.
    + apply String.eqb_eq in H0 as ->. by destruct (String.eqb k' k).
    + destruct (String.eqb k0 k) eqn:H1; [|exact IH].
      apply String.eqb_eq in H1 as ->. by rewrite String.eqb_sym, H0.
Qed.

Lemma dict_set_keys (k v : string) (d : dict) :
  (dict_set k v d).*1 = if bool_decide (k ∈ d.*1) then d.*1 else d.*1 ++ [k].
Proof.
  induction d as [|[k0 v0] d IH]; cbn; [done|].
  destruct (String.eqb k0 k) eqn:H0; cbn.
  - apply String.eqb_eq in H0 as ->.
    rewrite bool_decide_eq_true_2; [done|]. apply list_elem_of_here.
  - apply String.eqb_neq in H0. rewrite IH.
    destruct (bool_decide (k ∈ d.*1)) eqn:Hin.
    + apply bool_decide_eq_true in Hin.
      rewrite bool_decide_eq_true_2; [done|]. by apply list_elem_of_further.
    + apply bool_decide_eq_false in Hin.
      rewrite bool_decide_eq_false_2; [done|].
      intros [?|?]%elem_of_cons; [congruence|done].
Qed.

Lemma dict_set_NoDup (k v : string) (d : dict) :
  NoDup d.*1 -> NoDup (dict_set k v d).*1.
Proof.
  intros Hd. rewrite dict_set_keys.
  destruct (bool_decide (k ∈ d.*1)) eqn:Hin; [done|].
  apply bool_decide_eq_false in Hin.
  apply NoDup_app. split; [done|]. split; [|apply NoDup_singleton].
  intros x Hx ->%list_elem_of_singleton. done.
Qed.

Lemma dict_set_new (k v : string) (d : dict) :
  k ∉ d.*1 -> dict_set k v d = d ++ [(k, v)].
Proof.
  induction d as [|[k0 v0] d IH]; cbn; intros Hk; [done|].
  destruct (String.eqb k0 k) eqn:H0.
  - apply String.eqb_eq in H0 as ->. exfalso. apply Hk, list_elem_of_here.
  - rewrite IH; [done|]. intros ?. by apply Hk, list_elem_of_further.
Qed.

Lemma dict_get_app (k : string) (d1 d2 : dict) :
  dict_get k (d1 ++ d2)
  = match dict_get k d1 with Some v => Some v | None => dict_get k d2 end.
Proof.
  induction d1 as [|[k0 v0] d1 IH]; cbn; [done|].
  by destruct (String.eqb k0 k).
Qed.

Lemma dict_get_None (k : string) (d : dict) : dict_get k d = None <-> k ∉ d.*1.
Proof.
  induction d as [|[k0 v0] d IH]; cbn.
  - split; [intros _ H; by apply elem_of_nil in H|done].
  - destruct (String.eqb k0 k) eqn:H0.
    + apply String.eqb_eq in H0 as ->. split; [done|].
      intros H. exfalso. apply H, list_elem_of_here.
    + apply String.eqb_neq in H0. rewrite IH. split.
      * intros H [?|?]%elem_of_cons; [congruence|done].
      * intros H ?. by apply H, list_elem_of_further.
Qed.

Lemma dict_get_elem_of (k v : string) (d : dict) :
  dict_get k d = Some v -> (k, v) ∈ d.
Proof.
  induction d as [|[k0 v0] d IH]; cbn; [done|].
  destruct (String.eqb k0 k) eqn:H0.
  - apply String.eqb_eq in H0 as ->. intros [= ->]. apply list_elem_of_here.
  - intros H. by apply list_elem_of_further, IH.
Qed.

Lemma elem_of_dict_get (k v : string) (d : dict) :
  NoDup d.*1 -> (k, v) ∈ d -> dict_get k d = Some v.
Proof.
  induction d as [|[k0 v0] d IH]; cbn; intros Hd Hin.
  - by apply elem_of_nil in Hin.
  - apply NoDup_cons in Hd as [Hk0 Hd].
    apply elem_of_cons in Hin as [[= <- <-]|Hin].
    + by rewrite String.eqb_refl.
    + destruct (String.eqb k0 k) eqn:H0; [|by apply IH].
      apply String.eqb_eq in H0 as ->. exfalso. apply Hk0.
      apply list_elem_of_fmap. by exists (k, v).
Qed.

(** Setting the items of a list one after the other. *)
Lemma dict_get_fold (k : string) (items : list (string * string)) (d0 : dict) :
  dict_get k (foldl (fun d kv => dict_set kv.1 kv.2 d) d0 items)
  = match dict_get k (reverse items) with
    | Some v => Some v
    | None => dict_get k d0
    end.
Proof.
  revert d0. induction items as [|[k1 v1] items IH]; intros d0; [done|].
  rewrite reverse_cons, dict_get_app. cbn [foldl]. rewrite IH, dict_get_set.
  destruct (dict_get k (reverse items)); [done|]. cbn.
  by destruct (String.eqb k1 k).
Qed.

Lemma fold_NoDup (items : list (string * string)) (d0 : dict) :
  NoDup d0.*1 -> NoDup (foldl (fun d kv => dict_set kv.1 kv.2 d) d0 items).*1.
Proof.
  revert d0. induction items as [|[k1 v1] items IH]; intros d0 Hd; cbn; [done|].
  by apply IH, dict_set_NoDup.
Qed.

Lemma fold_fresh (items : list (string * string)) (d0 : dict) :
  NoDup (d0.*1 ++ items.*1) ->
  foldl (fun d kv => dict_set kv.1 kv.2 d) d0 items = d0 ++ items.
Proof.
  revert d0. induction items as [|[k1 v1] items IH]; intros d0 Hd; cbn.
  - by rewrite app_nil_r.
  - cbn in Hd. rewrite dict_set_new.
    + rewrite IH; [by rewrite <- app_assoc|].
      rewrite fmap_app. cbn. by rewrite <- app_assoc.
    + apply NoDup_app in Hd as (_ & Hd & _). intros Hin.
      apply (Hd _ Hin), list_elem_of_here.
Qed.

Lemma dict_get_reverse (k v : string) (items : list (string * string)) :
  dict_get k (reverse items) = Some v <-> last_with_key k v items.
Proof.
  unfold last_with_key. induction items as [|[k1 v1] items IH] using rev_ind.
  - split; [done|]. intros (l1 & l2 & H & _). by destruct l1.
  - rewrite reverse_app. cbn.
    destruct (String.eqb k1 k) eqn:H1.
    + apply String.eqb_eq in H1 as ->. split.
      * intros [= ->]. exists items, []. split; [done|]. intros H.
        by apply elem_of_nil in H.
      * intros (l1 & l2 & H & Hnot).
        destruct l2 as [|x l2 _] using rev_ind.
        -- apply app_inj_tail in H as [_ [= ->]]. done.
        -- exfalso. apply Hnot.
           rewrite app_comm_cons, app_assoc in H.
           apply app_inj_tail in H as [_ <-].
           rewrite fmap_app. apply elem_of_app. right. apply list_elem_of_here.
    + apply String.eqb_neq in H1. rewrite IH. split.
      * intros (l1 & l2 & -> & Hnot). exists l1, (l2 ++ [(k1, v1)]).
        split; [by rewrite <- app_assoc|].
        rewrite fmap_app. intros [?|Hin]%elem_of_app; [done|].
        apply list_elem_of_singleton in Hin. cbn in Hin. congruence.
      * intros (l1 & l2 & H & Hnot).
        destruct l2 as [|x l2 _] using rev_ind.
        -- apply app_inj_tail in H as [_ [= ? ?]]. congruence.
        -- rewrite app_comm_cons, app_assoc in H.
           apply app_inj_tail in H as [-> <-].
           exists l1, l2. split; [done|]. intros Hin. apply Hnot.
           rewrite fmap_app. apply elem_of_app. by left.
Qed.

Lemma dict_of_items_get (k v : string) (items : list (string * string)) :
  dict_get k (dict_of_items items) = Some v <-> last_with_key k v items.
Proof.
  unfold dict_of_items. rewrite dict_get_fold, <- dict_get_reverse. cbn.
  by destruct (dict_get k (reverse items)).
Qed.

(** The comprehension of [get_name_id_mapping] builds the dict of the
    swapped items. *)
Lemma comprehension_swap (d acc : dict) :
  foldl (fun acc kv => dict_set kv.2 kv.1 acc) acc d
  = foldl (fun d kv => dict_set kv.1 kv.2 d) acc (prod_swap <$> d).
Proof.
  revert acc. induction d as [|[k v] d IH]; intros acc; cbn; [done|]. apply IH.
Qed.

Lemma last_with_key_swap (k v : string) (d : dict) :
  last_with_key v k (prod_swap <$> d)
  <-> exists l1 l2, d = l1 ++ (k, v) :: l2 /\ v ∉ l2.*2.
Proof.
  unfold last_with_key. split.
  - intros (l1 & l2 & H & Hnot).
    apply fmap_app_inv in H as (l1' & l2' & -> & H & ->).
    symmetry in H. apply fmap_cons_inv in H as ([k0 v0] & l2'' & [= -> ->] & -> & ->).
    exists l1', l2''. split; [done|].
    intros Hin. apply Hnot. rewrite <- list_fmap_compose.
    by replace (fst ∘ prod_swap) with (@snd string string).
  - intros (l1 & l2 & -> & Hnot). exists (prod_swap <$> l1), (prod_swap <$> l2).
    split; [by rewrite fmap_app|].
    intros Hin. apply Hnot. rewrite <- list_fmap_compose in Hin.
    by replace (@snd string string) with (@fst string string ∘ prod_swap).
Qed.

End ExtractNamesFacts.

(** ** The identifiers and names of a graph *)

(** X11 ([_iterate_identifier_names], lines 37-43).  For a graph whose
    nodes are written [ns:identifier] with a namespace [ns] as long as
    [prefix], the generator yields the identifier and the name of every node
    that has a name, in the order of the nodes, and skips the nodes without
    a name.  The namespace is not compared with [prefix]: only its length
    counts. *)
Theorem iterate_identifier_names_strips (prefix : string)
    (nodes : list (string * string * ExtractNames.attrs))
    (Hns : Forall (fun nd => String.length nd.1.1 = String.length prefix) nodes) :
  ExtractNames._iterate_identifier_names (curie_node <$> nodes) prefix
  = omap named nodes.
Proof.
  induction Hns as [|[[ns i] data] nodes Hlen _ IH]; [done|].
  cbn [fmap list_fmap omap list_omap curie_node named fst snd
       ExtractNames._iterate_identifier_names].
  change (list_fmap _ _ curie_node nodes) with (curie_node <$> nodes).
  change (list_omap _ _ named nodes) with (omap named nodes).
  cbn in Hlen. rewrite (ExtractNamesFacts.slice_curie prefix ns i Hlen), IH.
  unfold named. cbn [fst snd]. by destruct (ExtractNames.get_name data).
Qed.

Lemma iterate_identifier_names_strips_witness :
  ExtractNames._iterate_identifier_names ExtractNames.hp_graph "hp"
  = [ ("0000001", "All"); ("0000118", "Phenotypic abnormality");
      ("0000001", "mitochondrion inheritance") ].
Proof.
  assert (H := iterate_identifier_names_strips "hp"
    [ ("HP", "0000001", {[ "name" := Some "All" ]});
      ("HP", "0000118", {[ "name" := Some "Phenotypic abnormality" ]});
      ("GO", "0000001", {[ "name" := Some "mitochondrion inheritance" ]});
      ("HP", "0000005", {[ "def" := Some "inheritance" ]}) ]).
  etrans; [apply H; repeat constructor|]. vm_compute. reflexivity.
Defined.

(** X12 ([get_id_name_mapping], lines 24-26).  When the graph is obtained,
    the wrapped function [_get_id_name_mapping] returns a dict in which an
    identifier has the name of the last node that yields this identifier:
    of two nodes with the same identifier the later one wins. *)
Theorem id_name_mapping_last_name_wins
    (get_obo_graph : string -> option string -> res ExtractNames.graph)
    (prefix : string) (url : option string) (g : ExtractNames.graph)
    (Hg : get_obo_graph prefix url = Ok g) :
  exists d,
    ExtractNames._get_id_name_mapping get_obo_graph prefix url = Ok d
    /\ NoDup d.*1
    /\ forall i n,
         ExtractNames.dict_get i d = Some n
         <-> last_with_key i n (ExtractNames._iterate_identifier_names g prefix).
Proof.
  unfold ExtractNames._get_id_name_mapping. rewrite Hg.
  eexists. split; [done|]. split.
  - apply ExtractNamesFacts.fold_NoDup. constructor.
  - intros i n. apply ExtractNamesFacts.dict_of_items_get.
Qed.

Lemma id_name_mapping_last_name_wins_witness :
  exists d,
    ExtractNames._get_id_name_mapping (fun _ _ => Ok ExtractNames.hp_graph) "hp" None
    = Ok d
    /\ ExtractNames.dict_get "0000001" d = Some "mitochondrion inheritance".
Proof.
  destruct (id_name_mapping_last_name_wins (fun _ _ => Ok ExtractNames.hp_graph)
              "hp" None ExtractNames.hp_graph eq_refl) as (d & Hd & _ & Hlast).
  exists d. split; [exact Hd|]. apply Hlast.
  exists [("0000001", "All"); ("0000118", "Phenotypic abnormality")], [].
  split; [vm_compute; reflexivity|].
  intros H. by apply elem_of_nil in H.
Defined.

(** ** The mapping from names to identifiers *)

(** X13 ([get_name_id_mapping], lines 31-34).  When [get_id_name_mapping]
    returns the dict [d], [get_name_id_mapping] returns a dict [inv] from
    names to identifiers such that: an identifier found under a name has
    this name in [d]; every name of [d] is a key of [inv]; and of several
    identifiers with the same name, [inv] keeps the last of [d]. *)
Theorem name_id_mapping_inverts
    (prefix_directory_join : string -> string -> string)
    (get_obo_graph : string -> option string -> res ExtractNames.graph)
    (cached_mapping : string -> list string ->
                      (unit -> res ExtractNames.dict) -> res ExtractNames.dict)
    (prefix : string) (url : option string) (d : ExtractNames.dict)
    (Hd : ExtractNames.get_id_name_mapping prefix_directory_join get_obo_graph
            cached_mapping prefix url = Ok d)
    (Hdict : NoDup d.*1) :
  exists inv,
    ExtractNames.get_name_id_mapping prefix_directory_join get_obo_graph
      cached_mapping prefix url = Ok inv
    /\ NoDup inv.*1
    /\ (forall n i, ExtractNames.dict_get n inv = Some i ->
          ExtractNames.dict_get i d = Some n)
    /\ (forall i n, ExtractNames.dict_get i d = Some n ->
          exists i', ExtractNames.dict_get n inv = Some i'
                     /\ ExtractNames.dict_get i' d = Some n)
    /\ (forall n i, ExtractNames.dict_get n inv = Some i <->
          exists l1 l2, d = l1 ++ (i, n) :: l2 /\ n ∉ l2.*2).
Proof.
  unfold ExtractNames.get_name_id_mapping. rewrite Hd.
  eexists. split; [done|].
  rewrite ExtractNamesFacts.comprehension_swap.
  assert (Hlast : forall n i,
    ExtractNames.dict_get n
      (foldl (fun d0 kv => ExtractNames.dict_set kv.1 kv.2 d0) [] (prod_swap <$> d))
    = Some i <-> exists l1 l2, d = l1 ++ (i, n) :: l2 /\ n ∉ l2.*2).
  { intros n i. rewrite <- ExtractNamesFacts.last_with_key_swap.
    apply ExtractNamesFacts.dict_of_items_get. }
  assert (Hsound : forall n i,
    ExtractNames.dict_get n
      (foldl (fun d0 kv => ExtractNames.dict_set kv.1 kv.2 d0) [] (prod_swap <$> d))
    = Some i -> ExtractNames.dict_get i d = Some n).
  { intros n i (l1 & l2 & -> & _)%Hlast.
    apply ExtractNamesFacts.elem_of_dict_get; [done|].
    apply elem_of_app. right. apply list_elem_of_here. }
  split; [apply ExtractNamesFacts.fold_NoDup; constructor|].
  split; [exact Hsound|]. split; [|exact Hlast].
  intros i n Hin.
  destruct (ExtractNames.dict_get n
      (foldl (fun d0 kv => ExtractNames.dict_set kv.1 kv.2 d0) [] (prod_swap <$> d)))
    as [i'|] eqn:Hget.
  - exists i'. split; [done|]. by apply Hsound.
  - exfalso. rewrite ExtractNamesFacts.dict_get_fold in Hget.
    destruct (ExtractNames.dict_get n (reverse (prod_swap <$> d))) eqn:Hrev; [done|].
    apply ExtractNamesFacts.dict_get_None in Hrev. apply Hrev.
    rewrite fmap_reverse. apply elem_of_reverse.
    apply list_elem_of_fmap. exists (n, i). split; [done|].
    apply list_elem_of_fmap. exists (i, n). split; [done|].
    by apply ExtractNamesFacts.dict_get_elem_of.
Qed.

Lemma name_id_mapping_inverts_witness :
  let d := [ ("0000001", "All"); ("0000118", "Phenotypic abnormality");
             ("0000002", "All") ] in
  exists inv,
    ExtractNames.get_name_id_mapping (fun p f => "/raw/" +:+ p +:+ "/" +:+ f)
      (fun _ _ => Ok []) (fun _ _ _ => Ok d) "hp" None = Ok inv
    /\ ExtractNames.dict_get "All" inv = Some "0000002"
    /\ ExtractNames.dict_get "Phenotypic abnormality" inv = Some "0000118".
Proof.
  intros d.
  destruct (name_id_mapping_inverts (fun p f => "/raw/" +:+ p +:+ "/" +:+ f)
              (fun _ _ => Ok []) (fun _ _ _ => Ok d) "hp" None d eq_refl)
    as (inv & Hinv & _ & _ & _ & Hlast).
  - apply (bool_decide_eq_true_1 _). vm_compute. reflexivity.
  - exists inv. split; [exact Hinv|]. split.
    + apply Hlast. exists [("0000001", "All"); ("0000118", "Phenotypic abnormality")], [].
      split; [reflexivity|]. intros H. by apply elem_of_nil in H.
    + apply Hlast. exists [("0000001", "All")], [("0000002", "All")].
      split; [reflexivity|]. cbn.
      intros H%list_elem_of_singleton. discriminate H.
Defined.

(** X14 ([get_name_id_mapping], lines 31-34).  When no two identifiers of
    the dict of [get_id_name_mapping] have the same name,
    [get_name_id_mapping] returns the swapped items of that dict in the same
    order: nothing is lost. *)
Theorem name_id_mapping_of_distinct_names
    (prefix_directory_join : string -> string -> string)
    (get_obo_graph : string -> option string -> res ExtractNames.graph)
    (cached_mapping : string -> list string ->
                      (unit -> res ExtractNames.dict) -> res ExtractNames.dict)
    (prefix : string) (url : option string) (d : ExtractNames.dict)
    (Hd : ExtractNames.get_id_name_mapping prefix_directory_join get_obo_graph
            cached_mapping prefix url = Ok d)
    (Hnames : NoDup d.*2) :
  ExtractNames.get_name_id_mapping prefix_directory_join get_obo_graph
    cached_mapping prefix url = Ok (prod_swap <$> d).
Proof.
  unfold ExtractNames.get_name_id_mapping. rewrite Hd. f_equal.
  rewrite ExtractNamesFacts.comprehension_swap, ExtractNamesFacts.fold_fresh; [done|].
  cbn. rewrite <- list_fmap_compose.
  by replace (fst ∘ prod_swap) with (@snd string string).
Qed.

Lemma name_id_mapping_of_distinct_names_witness :
  ExtractNames.get_name_id_mapping (fun p f => "/raw/" +:+ p +:+ "/" +:+ f)
    (fun _ _ => Ok ExtractNames.hp_graph)
    (fun _ _ compute => compute tt) "hp" None
  = Ok [ ("mitochondrion inheritance", "0000001");
         ("Phenotypic abnormality", "0000118") ].
Proof.
  apply (name_id_mapping_of_distinct_names (fun p f => "/raw/" +:+ p +:+ "/" +:+ f)
           (fun _ _ => Ok ExtractNames.hp_graph) (fun _ _ compute => compute tt)
           "hp" None
           [ ("0000001", "mitochondrion inheritance");
             ("0000118", "Phenotypic abnormality") ]).
  - vm_compute. reflexivity.
  - apply (bool_decide_eq_true_1 _). vm_compute. reflexivity.
Defined.

(* ===================================================================== *)
(** * pyobo.version *)
(* ===================================================================== *)

Module VersionFacts.
Import Version.

Lemma lstrip_spaces (ws l : bytes) :
  Forall (fun b => is_space b = true) ws -> lstrip (ws ++ l) = lstrip l.
Proof. induction 1 as [|b ws Hb _ IH]; [done|]. cbn. by rewrite Hb. Qed.

Lemma lstrip_no_space (l : bytes) :
  Forall (fun b => is_space b = false) l -> lstrip l = l.
Proof. destruct 1 as [|b l Hb _]; [done|]. cbn. by rewrite Hb. Qed.

Lemma strip_padded (lead h trail : bytes) :
  Forall (fun b => is_space b = true) lead ->
  Forall (fun b => is_space b = true) trail ->
  Forall (fun b => is_space b = false) h ->
  strip (lead ++ h ++ trail) = h.
Proof.
  intros Hlead Htrail Hh. unfold strip. rewrite (lstrip_spaces _ _ Hlead).
  assert (Hr : rstrip (h ++ trail) = h).
  { unfold rstrip. rewrite reverse_app, lstrip_spaces by by apply Forall_reverse.
    rewrite lstrip_no_space by by apply Forall_reverse.
    apply reverse_involutive. }
  destruct Hh as [|b h Hb Hh].
  - cbn [app]. rewrite <- (app_nil_r trail), (lstrip_spaces _ _ Htrail). done.
  - rewrite <- Hr at 2. f_equal. cbn. by rewrite Hb.
Qed.

Lemma decode_ascii (h : bytes) :
  Forall (fun b => (Byte.to_N b < 128)%N) h ->
  decode_utf8 h = Return (Byte.to_N <$> h).
Proof.
  induction 1 as [|b h Hb _ IH]; [done|].
  cbn [decode_utf8]. apply N.ltb_lt in Hb. rewrite Hb, IH. done.
Qed.

End VersionFacts.

(** X15 ([get_git_hash], lines 20-32, and [get_version], lines 35-37).  When
    git exits with 0 and its output is made of ASCII characters that are not
    whitespace, with whitespace before or after them (a hash and a newline),
    [get_git_hash] returns the first eight of these characters, and
    [get_version(with_git_hash=True)] returns [VERSION], a hyphen and these
    eight characters. *)
Theorem version_with_git_hash (lead h trail : Version.bytes)
    (Hlead : Forall (fun b => Version.is_space b = true) lead)
    (Htrail : Forall (fun b => Version.is_space b = true) trail)
    (Hh : Forall (fun b => Version.is_space b = false
                           /\ (Byte.to_N b < 128)%N) h) :
  Version.get_git_hash (Version.Exited 0 (lead ++ h ++ trail))
  = Version.Return (take 8 (Byte.to_N <$> h))
  /\ Version.get_version (Version.Exited 0 (lead ++ h ++ trail)) true
     = Version.Return (Version.VERSION ++ Version.str_of "-"
                       ++ take 8 (Byte.to_N <$> h)).
Proof.
  assert (Hhash : Version.get_git_hash (Version.Exited 0 (lead ++ h ++ trail))
                  = Version.Return (take 8 (Byte.to_N <$> h))).
  { unfold Version.get_git_hash. cbn [Version.check_output].
    rewrite VersionFacts.strip_padded; [|done|done|].
    - rewrite VersionFacts.decode_ascii; [done|].
      eapply Forall_impl; [exact Hh|]. by intros b [_ Hb].
    - eapply Forall_impl; [exact Hh|]. by intros b [Hb _]. }
  split; [exact Hhash|].
  unfold Version.get_version. by rewrite Hhash.
Qed.

Lemma version_with_git_hash_witness :
  Version.get_version
    (Version.Exited 0
       (Version.bytes_of "4f2a9c1e7b3d5a6f8091a2b3c4d5e6f708192a3b" ++ [Byte.x0a]))
    true
  = Version.Return (Version.str_of "0.10.2-dev-4f2a9c1e").
Proof.
  destruct (version_with_git_hash []
              (Version.bytes_of "4f2a9c1e7b3d5a6f8091a2b3c4d5e6f708192a3b")
              [Byte.x0a]) as [_ H].
  - constructor.
  - repeat constructor.
  - apply (bool_decide_eq_true_1 _). vm_compute. reflexivity.
  - etrans; [exact H|]. vm_compute. reflexivity.
Defined.
